(** * webmacs/keyboardhandler.py

    A shallow embedding of the key-chord dispatcher ([KeyEater]) and of the
    focus-driven keymap switcher ([LocalKeymapSetter]) of webmacs, followed
    by the properties of the dispatch state machine.

    The two classes are process-wide singletons ([KEY_EATER] and
    [LOCAL_KEYMAP_SETTER]); the module-level functions act on them.  The
    embedding keeps both in one record [World] and writes every method as a
    computation in a state-and-exception monad [Py] over that record. *)

From Stdlib Require Import ZArith Lia Ascii String DecimalString DecimalZ DecimalPos.
From stdpp Require Import base gmap list strings.

Open Scope Z_scope.

(** ** Python values used by the module *)

(** Exceptions.  [Exception] stands for any other subclass of Python's
    [Exception], the class caught by the dispatch loop. *)
Inductive PyExn :=
| KeyError (msg : string)
| ValueError (msg : string)
| NameError (msg : string)
| Exception (msg : string).

Inductive Outcome (A : Type) :=
| Returns (a : A)
| Raises (e : PyExn).
Arguments Returns {A} a.
Arguments Raises {A} e.

(** A Python return value of [event_filter]: a boolean, or [None] when the
    function falls off its end. *)
Inductive PyRet :=
| RetBool (b : bool)
| RetNone.

Definition truthy (r : PyRet) : bool :=
  match r with
  | RetBool b => b
  | RetNone => false
  end.

(** [str(n)] and [int(s)] on decimal numerals. [int] raises [ValueError] on
    a string that is not a numeral. *)
Definition py_str (n : Z) : string := NilZero.string_of_int (Z.to_int n).

Definition py_int (s : string) : Outcome Z :=
  match NilZero.int_of_string s with
  | Some d => Returns (Z.of_int d)
  | None => Raises (ValueError ("invalid literal for int() with base 10: " +:+ s))
  end.

(** [list.remove(x)]: drops the first element equal to [x]; [None] stands
    for the [ValueError] raised when there is none. *)
Fixpoint list_remove `{EqDecision A} (x : A) (l : list A) : option (list A) :=
  match l with
  | [] => None
  | y :: l' => if decide (y = x) then Some l' else (y ::.) <$> list_remove x l'
  end.

(** ** Key presses *)

(** Modelled from the spec: class [KeyPress] and the table [CHAR2KEY] live
    in [keymaps.py], which is not part of this file.  A key press is a key
    identifier together with a modifier set; two key presses are equal iff
    both agree.  The modifier set is given by its characteristic booleans. *)
Record KeyPress := mkKeyPress {
  key : Z;
  control_modifier : bool;
  alt_modifier : bool;
  shift_modifier : bool;
  meta_modifier : bool
}.

#[global] Instance KeyPress_eq_dec : EqDecision KeyPress.
Proof. solve_decision. Defined.

Definition has_any_modifier (kp : KeyPress) : bool :=
  control_modifier kp || alt_modifier kp || shift_modifier kp || meta_modifier kp.

(** Modelled from the spec: [CHAR2KEY] maps a character to its key
    identifier; the key-code space is the one of character codes. *)
Definition CHAR2KEY (c : ascii) : Z := Z.of_N (N_of_ascii c).

Definition plain_key (c : ascii) : KeyPress := mkKeyPress (CHAR2KEY c) false false false false.

(** Modelled from the spec: the value of [KeyPress.from_str("C-u")], the key
    [u] with the Control modifier. *)
Definition KeyPress_from_str_C_u : KeyPress := mkKeyPress (CHAR2KEY "u") true false false false.

(** A toolkit event, seen through [KeyPress.from_qevent]: [None] for an
    event that is not a key press. *)
Record QEvent := mkQEvent { from_qevent : option KeyPress }.

(** ** Commands and keymaps (external collaborators) *)

(** A callable command.  Its body is outside this file; the embedding keeps
    its identity and whether running it raises.  A running command is taken
    to read the dispatcher (through [current_prefix_arg()]) but not to call
    the setters of this module. *)
Record Callable := mkCallable {
  callable_name : string;
  callable_raises : option PyExn
}.

(** A command reference: a name to resolve in the registry, or a callable. *)
Inductive Command :=
| CommandStr (name : string)
| CommandCallable (f : Callable).

Record LookupResult := mkLookupResult {
  complete : bool;
  command : Command
}.

(** A keymap, consumed through [lookup] only: [None] is "no match". *)
Record Keymap := mkKeymap {
  keymap_name : string;
  lookup : list KeyPress -> option LookupResult
}.

(** ** The prefix argument *)

(** [None], an [int], or a one-element tuple. *)
Inductive PrefixArg :=
| PNone
| PInt (n : Z)
| PTuple (n : Z).

Definition is_int (p : PrefixArg) : bool := if p is PInt _ then true else false.
Definition is_tuple (p : PrefixArg) : bool := if p is PTuple _ then true else false.
Definition is_not_None (p : PrefixArg) : bool := if p is PNone then false else true.

(** ** State *)

Definition ObjId := positive.

(** A function object made by [lambda: self._num_update_prefix_arg(i)].  It
    refers to the variable [i] of the enclosing [__init__] call, not to the
    value [i] had when the lambda was evaluated. *)
Inductive Lambda :=
| Lambda_num_update_prefix_arg (free_var : string).

Record KeyEater := mkKeyEater {
  _keypresses : list KeyPress;
  _commands : gmap string Callable;
  _local_key_map : option Keymap;
  current_obj : option ObjId;
  _use_global_keymap : bool;
  universal_key : KeyPress;
  _prefix_arg : PrefixArg;
  _reset_prefix_arg : bool;
  _allowed_universal_keys : gmap Z Lambda;
  (** the local variables of the [__init__] call that the lambdas keep alive *)
  init_locals : gmap string string
}.

Record LocalKeymapSetter := mkLocalKeymapSetter {
  _views : list ObjId;
  _minibuffer_inputs : list ObjId;
  _current_obj : option ObjId
}.

(** What the module does to its collaborators. *)
Inductive Event :=
| minibuffer_show_info (chord : list KeyPress)
| keymap_lookup (keymap : string) (chord : list KeyPress)
| command_call (f : Callable) (readable_prefix_arg : PrefixArg)
| logging_exception (e : PyExn).

Record World := mkWorld {
  KEY_EATER : KeyEater;
  LOCAL_KEYMAP_SETTER : LocalKeymapSetter;
  global_key_map : Keymap;
  events : list Event
}.

(** ** The monad of module code *)

Definition Py (A : Type) : Type := World -> Outcome A * World.

#[global] Instance Py_ret : MRet Py := fun A a w => (Returns a, w).

#[global] Instance Py_bind : MBind Py := fun A B f m w =>
  match m w with
  | (Returns a, w') => f a w'
  | (Raises e, w') => (Raises e, w')
  end.

Definition bind {A B} (m : Py A) (f : A -> Py B) : Py B := m ≫= f.

Notation "'let*' x ':=' m 'in' k" := (bind m (fun x => k))
  (at level 10, x name, m at level 100, k at level 200,
   format "'[v' 'let*'  x  :=  m  'in' '/' k ']'").

Definition raise {A} (e : PyExn) : Py A := fun w => (Raises e, w).

Definition try_except {A} (m : Py A) (handler : PyExn -> Py A) : Py A := fun w =>
  match m w with
  | (Returns a, w') => (Returns a, w')
  | (Raises e, w') => handler e w'
  end.

Definition lift {A} (o : Outcome A) : Py A := fun w => (o, w).

Definition emit (e : Event) : Py unit := fun w =>
  (Returns (), mkWorld (KEY_EATER w) (LOCAL_KEYMAP_SETTER w) (global_key_map w) (events w ++ [e])).

Definition read_key_eater {A} (f : KeyEater -> A) : Py A := fun w => (Returns (f (KEY_EATER w)), w).

Definition update_key_eater (f : KeyEater -> KeyEater) : Py unit := fun w =>
  (Returns (), mkWorld (f (KEY_EATER w)) (LOCAL_KEYMAP_SETTER w) (global_key_map w) (events w)).

Definition read_setter {A} (f : LocalKeymapSetter -> A) : Py A := fun w =>
  (Returns (f (LOCAL_KEYMAP_SETTER w)), w).

Definition update_setter (f : LocalKeymapSetter -> LocalKeymapSetter) : Py unit := fun w =>
  (Returns (), mkWorld (KEY_EATER w) (f (LOCAL_KEYMAP_SETTER w)) (global_key_map w) (events w)).

Definition read_global_key_map : Py Keymap := fun w => (Returns (global_key_map w), w).

(** Field assignments on [self]. *)
Definition set__keypresses (v : list KeyPress) (k : KeyEater) : KeyEater :=
  mkKeyEater v (_commands k) (_local_key_map k) (current_obj k) (_use_global_keymap k)
    (universal_key k) (_prefix_arg k) (_reset_prefix_arg k) (_allowed_universal_keys k)
    (init_locals k).

Definition set__local_key_map (v : option Keymap) (k : KeyEater) : KeyEater :=
  mkKeyEater (_keypresses k) (_commands k) v (current_obj k) (_use_global_keymap k)
    (universal_key k) (_prefix_arg k) (_reset_prefix_arg k) (_allowed_universal_keys k)
    (init_locals k).

Definition set_current_obj (v : option ObjId) (k : KeyEater) : KeyEater :=
  mkKeyEater (_keypresses k) (_commands k) (_local_key_map k) v (_use_global_keymap k)
    (universal_key k) (_prefix_arg k) (_reset_prefix_arg k) (_allowed_universal_keys k)
    (init_locals k).

Definition set__use_global_keymap (v : bool) (k : KeyEater) : KeyEater :=
  mkKeyEater (_keypresses k) (_commands k) (_local_key_map k) (current_obj k) v
    (universal_key k) (_prefix_arg k) (_reset_prefix_arg k) (_allowed_universal_keys k)
    (init_locals k).

Definition set__prefix_arg (v : PrefixArg) (k : KeyEater) : KeyEater :=
  mkKeyEater (_keypresses k) (_commands k) (_local_key_map k) (current_obj k)
    (_use_global_keymap k) (universal_key k) v (_reset_prefix_arg k)
    (_allowed_universal_keys k) (init_locals k).

Definition set__reset_prefix_arg (v : bool) (k : KeyEater) : KeyEater :=
  mkKeyEater (_keypresses k) (_commands k) (_local_key_map k) (current_obj k)
    (_use_global_keymap k) (universal_key k) (_prefix_arg k) v
    (_allowed_universal_keys k) (init_locals k).

Definition set__views (v : list ObjId) (s : LocalKeymapSetter) : LocalKeymapSetter :=
  mkLocalKeymapSetter v (_minibuffer_inputs s) (_current_obj s).

Definition set__minibuffer_inputs (v : list ObjId) (s : LocalKeymapSetter) : LocalKeymapSetter :=
  mkLocalKeymapSetter (_views s) v (_current_obj s).

(** ** class KeyEater *)

Module KeyEater.

(** The loop of [__init__]:
    [for i in "1234567890": self._allowed_universal_keys[CHAR2KEY[i]] = lambda: ...(i)].
    Each round first binds the variable [i], then stores under the digit's
    key a lambda that mentions that variable. *)
Fixpoint init_loop (chars : list ascii) (allowed : gmap Z Lambda) (locals : gmap string string)
  : gmap Z Lambda * gmap string string :=
  match chars with
  | [] => (allowed, locals)
  | i :: rest =>
      let locals' := <["i" := String i EmptyString]> locals in
      let allowed' := <[CHAR2KEY i := Lambda_num_update_prefix_arg "i"]> allowed in
      init_loop rest allowed' locals'
  end.

Definition __init__ (COMMANDS : gmap string Callable) : KeyEater :=
  let '(allowed, locals) := init_loop (list_ascii_of_string "1234567890") ∅ ∅ in
  {| _keypresses := [];
     _commands := COMMANDS;
     _local_key_map := None;
     current_obj := None;
     _use_global_keymap := true;
     universal_key := KeyPress_from_str_C_u;
     _prefix_arg := PNone;
     _reset_prefix_arg := false;
     _allowed_universal_keys := allowed;
     init_locals := locals |}.

Definition set_local_key_map (keymap : option Keymap) : Py unit :=
  update_key_eater (set__local_key_map keymap).

Definition local_key_map : Py (option Keymap) :=
  read_key_eater _local_key_map.

Definition set_global_keymap_enabled (enable : bool) : Py unit :=
  update_key_eater (set__use_global_keymap enable).

(** The keymaps the generator [active_keymaps] yields, in order, when
    nothing changes the dispatcher between its two tests. *)
Definition active_keymaps : Py (list Keymap) :=
  let* local_map := read_key_eater _local_key_map in
  let* use_global := read_key_eater _use_global_keymap in
  let* global := read_global_key_map in
  mret (match local_map with Some km => [km] | None => [] end
          ++ if use_global then [global] else []).

(** [for keymap in self.active_keymaps(): body].  The generator is
    resumed between two rounds of the loop, so its second test runs after
    the body has run on the local keymap. *)
Definition for_active_keymaps {A} (body : Keymap -> A -> Py A) (acc : A) : Py A :=
  let* local_map := read_key_eater _local_key_map in
  let* acc := match local_map with
              | Some km => body km acc
              | None => mret acc
              end in
  let* use_global := read_key_eater _use_global_keymap in
  if use_global then
    let* global := read_global_key_map in
    body global acc
  else mret acc.

Definition _add_keypress (keypress : KeyPress) : Py unit :=
  let* keypresses := read_key_eater _keypresses in
  update_key_eater (set__keypresses (keypresses ++ [keypress]));;
  let* keypresses := read_key_eater _keypresses in
  emit (minibuffer_show_info keypresses).

Definition _num_update_prefix_arg (numstr : string) : Py unit :=
  let* prefix_arg := read_key_eater _prefix_arg in
  match prefix_arg with
  | PInt n =>
      let* v := lift (py_int (py_str n +:+ numstr)) in
      update_key_eater (set__prefix_arg (PInt v))
  | _ =>
      let* v := lift (py_int numstr) in
      update_key_eater (set__prefix_arg (PInt v))
  end.

(** Calling a stored lambda: its free variable is read when it runs. *)
Definition call_lambda (func : Lambda) : Py unit :=
  match func with
  | Lambda_num_update_prefix_arg var =>
      let* locals := read_key_eater init_locals in
      match locals !! var with
      | Some i => _num_update_prefix_arg i
      | None => raise (NameError var)
      end
  end.

(** [command()]: the command runs with the prefix argument it can read
    through [current_prefix_arg()]. *)
Definition call (f : Callable) : Py unit :=
  let* prefix_arg := read_key_eater _prefix_arg in
  emit (command_call f prefix_arg);;
  match callable_raises f with
  | Some e => raise e
  | None => mret ()
  end.

Definition _call_command (command : Command) : Py unit :=
  let* f :=
      match command with
      | CommandStr name =>
          let* commands := read_key_eater _commands in
          match commands !! name with
          | Some f => mret f
          | None => raise (KeyError ("No such command: " +:+ name))
          end
      | CommandCallable f => mret f
      end in
  call f.

(** The body of the loop over the active keymaps, carrying the two flags
    [incomplete_keychord] and [command_called]. *)
Definition lookup_step (keymap : Keymap) (flags : bool * bool) : Py (bool * bool) :=
  let '(incomplete_keychord, command_called) := flags in
  let* keypresses := read_key_eater _keypresses in
  emit (keymap_lookup (keymap_name keymap) keypresses);;
  match lookup keymap keypresses with
  | None => mret (incomplete_keychord, command_called)
  | Some result =>
      if negb (complete result) then mret (true, command_called)
      else
        try_except (_call_command (command result))
                   (fun e => emit (logging_exception e));;
        mret (incomplete_keychord, true)
  end.

(** The digit branch of [_handle_keypress]; [true] when it handled the key. *)
Definition digit_extension (keypress : KeyPress) : Py bool :=
  let* prefix_arg := read_key_eater _prefix_arg in
  if is_not_None prefix_arg then
    let* allowed := read_key_eater _allowed_universal_keys in
    match allowed !! key keypress with
    | None => mret false
    | Some func =>
        if negb (has_any_modifier keypress) then
          call_lambda func;;
          _add_keypress keypress;;
          mret true
        else mret false
    end
  else mret false.

Definition normal_lookup (keypress : KeyPress) : Py bool :=
  _add_keypress keypress;;
  let* flags := for_active_keymaps lookup_step (false, false) in
  let '(incomplete_keychord, command_called) := flags in
  (if command_called || negb incomplete_keychord
   then update_key_eater (set__keypresses []) else mret ());;
  (if command_called then update_key_eater (set__reset_prefix_arg true) else mret ());;
  mret (command_called || incomplete_keychord).

Definition _handle_keypress (keypress : KeyPress) : Py bool :=
  let* reset := read_key_eater _reset_prefix_arg in
  (if reset then
     update_key_eater (set__reset_prefix_arg false);;
     update_key_eater (set__prefix_arg PNone)
   else mret ());;
  let* universal := read_key_eater universal_key in
  if decide (keypress = universal) then
    let* prefix_arg := read_key_eater _prefix_arg in
    match prefix_arg with
    | PTuple n => update_key_eater (set__prefix_arg (PTuple (n * 4)))
    | _ =>
        update_key_eater (set__prefix_arg (PTuple 4));;
        update_key_eater (set__keypresses [])
    end;;
    _add_keypress keypress;;
    mret true
  else
    let* handled := digit_extension keypress in
    if handled then mret true else normal_lookup keypress.

Definition event_filter (obj : ObjId) (event : QEvent) : Py PyRet :=
  match from_qevent event with
  | None => mret (RetBool false)
  | Some key =>
      update_key_eater (set_current_obj (Some obj));;
      let* handled := _handle_keypress key in
      if handled then mret (RetBool true) else mret RetNone
  end.

End KeyEater.

(** ** Module-level functions on the singleton [KEY_EATER] *)

Definition local_keymap : Py (option Keymap) := KeyEater.local_key_map.

Definition set_local_keymap (keymap : option Keymap) : Py unit :=
  KeyEater.set_local_key_map keymap.

Definition set_global_keymap_enabled (enable : bool) : Py unit :=
  KeyEater.set_global_keymap_enabled enable.

Definition current_prefix_arg : Py PrefixArg := read_key_eater _prefix_arg.

(** ** class LocalKeymapSetter *)

(** A toolkit object as the switcher reads it: its identity, [obj.keymap()],
    [obj.popup().isVisible()] and
    [obj.parent().parent().current_web_view().keymap()]. *)
Record QObject := mkQObject {
  obj_id : ObjId;
  obj_keymap : Keymap;
  popup_isVisible : bool;
  window_current_web_view_keymap : Keymap
}.

Record Buffer := mkBuffer {
  buffer_keymap : Keymap;
  content_edit_keymap : Keymap
}.

(** A window as [web_content_edit_focus_changed] reads it:
    [window.current_web_view().buffer()] and
    [window.minibuffer().input().hasFocus()]. *)
Record Window := mkWindow {
  current_web_view_buffer : Buffer;
  minibuffer_input_hasFocus : bool
}.

Inductive QEventType :=
| WindowActivate
| FocusIn
| FocusOut
| OtherEvent.

Module LocalKeymapSetter.

Definition __init__ : LocalKeymapSetter :=
  {| _views := []; _minibuffer_inputs := []; _current_obj := None |}.

Definition register_view (view : ObjId) : Py unit :=
  let* views := read_setter _views in
  update_setter (set__views (views ++ [view])).

Definition view_destroyed (view : ObjId) : Py unit :=
  let* views := read_setter _views in
  match list_remove view views with
  | Some views' => update_setter (set__views views')
  | None => raise (ValueError "list.remove(x): x not in list")
  end.

Definition register_minibuffer_input (minibuffer_input : ObjId) : Py unit :=
  let* inputs := read_setter _minibuffer_inputs in
  update_setter (set__minibuffer_inputs (inputs ++ [minibuffer_input])).

Definition _minibuffer_input_destroyed (minibuffer_input : ObjId) : Py unit :=
  let* inputs := read_setter _minibuffer_inputs in
  match list_remove minibuffer_input inputs with
  | Some inputs' => update_setter (set__minibuffer_inputs inputs')
  | None => raise (ValueError "list.remove(x): x not in list")
  end.

Definition eventFilter (obj : QObject) (t : QEventType) : Py bool :=
  match t with
  | WindowActivate =>
      let* views := read_setter _views in
      if bool_decide (obj_id obj ∈ views)
      then set_local_keymap (Some (obj_keymap obj))
      else mret ()
  | FocusIn =>
      let* inputs := read_setter _minibuffer_inputs in
      if bool_decide (obj_id obj ∈ inputs)
      then set_local_keymap (Some (obj_keymap obj))
      else mret ()
  | FocusOut =>
      let* inputs := read_setter _minibuffer_inputs in
      if bool_decide (obj_id obj ∈ inputs) then
        if negb (popup_isVisible obj)
        then set_local_keymap (Some (window_current_web_view_keymap obj))
        else mret ()
      else mret ()
  | OtherEvent => mret ()
  end;;
  mret false.

Definition web_content_edit_focus_changed (window : Window) (enabled : bool) : Py unit :=
  if enabled then
    let buff := current_web_view_buffer window in
    set_local_keymap (Some (content_edit_keymap buff))
  else
    if negb (minibuffer_input_hasFocus window) then
      let buff := current_web_view_buffer window in
      set_local_keymap (Some (buffer_keymap buff))
    else mret ().

End LocalKeymapSetter.

(** The module after import: both singletons freshly constructed. *)
Definition module_loaded (COMMANDS : gmap string Callable) (global : Keymap) : World :=
  {| KEY_EATER := KeyEater.__init__ COMMANDS;
     LOCAL_KEYMAP_SETTER := LocalKeymapSetter.__init__;
     global_key_map := global;
     events := [] |}.

(** Delivering key presses one after the other through [event_filter]. *)
Fixpoint feed_all (obj : ObjId) (keys : list KeyPress) : Py (list PyRet) :=
  match keys with
  | [] => mret []
  | k :: rest =>
      let* r := KeyEater.event_filter obj (mkQEvent (Some k)) in
      let* rs := feed_all obj rest in
      mret (r :: rs)
  end.

(** ** Sample data *)

Definition no_bindings : Keymap := mkKeymap "empty" (fun _ => None).

Definition c_u : KeyPress := KeyPress_from_str_C_u.

Definition sample_world : World := module_loaded ∅ no_bindings.

Definition key_g : KeyPress := plain_key "g".
Definition key_x : KeyPress := plain_key "x".

Definition scroll_top : Callable := mkCallable "scroll-top" None.
Definition failing_command : Callable := mkCallable "broken" (Some (Exception "boom")).

Definition sample_commands : gmap string Callable := {[ "scroll-top" := scroll_top ]}.

(** A keymap that binds the chord [g g] to the command named [scroll-top]. *)
Definition g_g_keymap : Keymap :=
  mkKeymap "local"
    (fun chord =>
       if decide (chord = [key_g]) then Some (mkLookupResult false (CommandStr "scroll-top"))
       else if decide (chord = [key_g; key_g]) then Some (mkLookupResult true (CommandStr "scroll-top"))
       else None).

(** A global keymap that binds [g g] as well, and [x] to an unknown name. *)
Definition sample_global : Keymap :=
  mkKeymap "global"
    (fun chord =>
       if decide (chord = [key_g; key_g]) then Some (mkLookupResult true (CommandCallable failing_command))
       else if decide (chord = [key_x]) then Some (mkLookupResult true (CommandStr "no-such"))
       else None).

(** The module loaded with these, the local keymap being [g_g_keymap]. *)
Definition browsing_world : World :=
  (set_local_keymap (Some g_g_keymap) (module_loaded sample_commands sample_global)).2.

(** The same after [g] has been pressed: the chord [g] is pending. *)
Definition pending_g_world : World :=
  (feed_all 1%positive [key_g] browsing_world).2.

(** A keymap that binds the chord made of the universal key and [x]. *)
Definition prefixed_keymap : Keymap :=
  mkKeymap "prefixed"
    (fun chord =>
       if decide (chord = [c_u; key_x])
       then Some (mkLookupResult true (CommandCallable scroll_top))
       else None).

(** The module with that local keymap, after one universal press. *)
Definition prefixed_world : World :=
  (feed_all 1%positive [c_u]
     (set_local_keymap (Some prefixed_keymap) (module_loaded sample_commands no_bindings)).2).2.

(** The fresh module after one universal press, and after the presses
    universal, universal, 3, 7. *)
Definition after_universal : World :=
  (feed_all 1%positive [c_u] sample_world).2.

Definition after_prefix_keys : World :=
  (feed_all 1%positive [c_u; c_u; plain_key "3"; plain_key "7"] sample_world).2.

(** The module with the global keymap alone, which binds [x] to a name the
    registry does not know. *)
Definition unknown_x_world : World := module_loaded sample_commands sample_global.

(** A registry holding the view 3, from which it is then removed. *)
Definition deregistered_world : World :=
  (LocalKeymapSetter.view_destroyed 3%positive
     (LocalKeymapSetter.register_view 3%positive browsing_world).2).2.

(** ** Reading the state machine *)

Definition with_key_eater (k : KeyEater) (w : World) : World :=
  mkWorld k (LOCAL_KEYMAP_SETTER w) (global_key_map w) (events w).

Definition add_events (evs : list Event) (w : World) : World :=
  mkWorld (KEY_EATER w) (LOCAL_KEYMAP_SETTER w) (global_key_map w) (events w ++ evs).

(** The first statement of [_handle_keypress]: an armed flag clears the
    prefix argument and disarms itself. *)
Definition deferred_reset (k : KeyEater) : KeyEater :=
  if _reset_prefix_arg k
  then set__prefix_arg PNone (set__reset_prefix_arg false k)
  else k.

(** Which branch of [_handle_keypress] a key press takes. *)
Definition takes_universal_path (k : KeyEater) (kp : KeyPress) : bool :=
  bool_decide (kp = universal_key k).

Definition takes_digit_path (k : KeyEater) (kp : KeyPress) : bool :=
  negb (takes_universal_path k kp)
  && is_not_None (_prefix_arg (deferred_reset k))
  && bool_decide (is_Some (_allowed_universal_keys k !! key kp))
  && negb (has_any_modifier kp).

Definition takes_normal_path (k : KeyEater) (kp : KeyPress) : bool :=
  negb (takes_universal_path k kp) && negb (takes_digit_path k kp).

(** The keymaps queried for a key press, as a list. *)
Definition active_keymap_list (w : World) : list Keymap :=
  match _local_key_map (KEY_EATER w) with Some km => [km] | None => [] end
  ++ if _use_global_keymap (KEY_EATER w) then [global_key_map w] else [].

Definition reports_partial (chord : list KeyPress) (km : Keymap) : bool :=
  match lookup km chord with
  | Some r => negb (complete r)
  | None => false
  end.

Definition reports_complete (chord : list KeyPress) (km : Keymap) : bool :=
  match lookup km chord with
  | Some r => complete r
  | None => false
  end.

Definition reports_nothing (chord : list KeyPress) (km : Keymap) : bool :=
  match lookup km chord with
  | Some _ => false
  | None => true
  end.

(** What one call of [_call_command] adds to the event log once the
    dispatch loop has caught what it raised. *)
Definition run_events (k : KeyEater) (f : Callable) : list Event :=
  command_call f (_prefix_arg k)
  :: match callable_raises f with
     | Some e => [logging_exception e]
     | None => []
     end.

Definition call_events (k : KeyEater) (c : Command) : list Event :=
  match c with
  | CommandStr name =>
      match _commands k !! name with
      | Some f => run_events k f
      | None => [logging_exception (KeyError ("No such command: " +:+ name))]
      end
  | CommandCallable f => run_events k f
  end.

Definition step_events (k : KeyEater) (chord : list KeyPress) (km : Keymap) : list Event :=
  keymap_lookup (keymap_name km) chord
  :: match lookup km chord with
     | Some r => if complete r then call_events k (command r) else []
     | None => []
     end.

Definition step_flags (chord : list KeyPress) (km : Keymap) (flags : bool * bool) : bool * bool :=
  match lookup km chord with
  | None => flags
  | Some r => if complete r then (flags.1, true) else (true, flags.2)
  end.

(** The commands invoked and the keymaps queried, read off an event log. *)
Definition calls_of (evs : list Event) : list (Callable * PrefixArg) :=
  omap (fun e => if e is command_call f p then Some (f, p) else None) evs.

Definition lookups_of (evs : list Event) : list (string * list KeyPress) :=
  omap (fun e => if e is keymap_lookup n c then Some (n, c) else None) evs.

(** The callable a command reference stands for, if the registry knows it. *)
Definition resolve (k : KeyEater) (c : Command) : option Callable :=
  match c with
  | CommandStr name => _commands k !! name
  | CommandCallable f => Some f
  end.

(** The chord a key press on the normal path is looked up with, and what
    the active keymaps say about it. *)
Definition chord_with (w : World) (kp : KeyPress) : list KeyPress :=
  _keypresses (KEY_EATER w) ++ [kp].

Definition command_found (w : World) (kp : KeyPress) : bool :=
  existsb (reports_complete (chord_with w kp)) (active_keymap_list w).

Definition partial_found (w : World) (kp : KeyPress) : bool :=
  existsb (reports_partial (chord_with w kp)) (active_keymap_list w).

Definition full_miss (w : World) (kp : KeyPress) : bool :=
  forallb (reports_nothing (chord_with w kp)) (active_keymap_list w).

(** The two flags after the loop over [kms] on the chord [chord]. *)
Definition loop_flags (chord : list KeyPress) (kms : list Keymap) : bool * bool :=
  foldl (fun flags km => step_flags chord km flags) (false, false) kms.

(** The end of [_handle_keypress] on the normal path, given the flags. *)
Definition finish_lookup (incomplete_keychord command_called : bool) (k : KeyEater) : KeyEater :=
  let k1 := if command_called || negb incomplete_keychord then set__keypresses [] k else k in
  if command_called then set__reset_prefix_arg true k1 else k1.

(** The normal path as one state change: the key joins the chord, the chord
    is echoed, every active keymap is queried, and the flags decide what is
    left. *)
Definition normal_lookup_result (kp : KeyPress) (w : World) : bool * World :=
  let chord := _keypresses (KEY_EATER w) ++ [kp] in
  let k1 := set__keypresses chord (KEY_EATER w) in
  let kms := active_keymap_list w in
  let '(incomplete_keychord, command_called) := loop_flags chord kms in
  (command_called || incomplete_keychord,
   with_key_eater (finish_lookup incomplete_keychord command_called k1)
     (add_events (minibuffer_show_info chord :: concat (step_events k1 chord <$> kms)) w)).

(** The dispatcher once [event_filter] has recorded who received the key. *)
Definition received (obj : ObjId) (w : World) : World :=
  with_key_eater (set_current_obj (Some obj) (KEY_EATER w)) w.

(** What [event_filter] returns for the boolean of [_handle_keypress]. *)
Definition filter_result (handled : bool) : PyRet :=
  if handled then RetBool true else RetNone.

(** [_handle_keypress] from its second statement on. *)
Definition dispatch (keypress : KeyPress) : Py bool :=
  let* universal := read_key_eater universal_key in
  if decide (keypress = universal) then
    let* prefix_arg := read_key_eater _prefix_arg in
    match prefix_arg with
    | PTuple n => update_key_eater (set__prefix_arg (PTuple (n * 4)))
    | _ =>
        update_key_eater (set__prefix_arg (PTuple 4));;
        update_key_eater (set__keypresses [])
    end;;
    KeyEater._add_keypress keypress;;
    mret true
  else
    let* handled := KeyEater.digit_extension keypress in
    if handled then mret true else KeyEater.normal_lookup keypress.

(** The universal-key branch, on a dispatcher whose deferred reset has
    already been carried out. *)
Definition universal_result (kp : KeyPress) (k : KeyEater) : KeyEater :=
  let k1 := match _prefix_arg k with
            | PTuple n => set__prefix_arg (PTuple (n * 4)) k
            | _ => set__keypresses [] (set__prefix_arg (PTuple 4) k)
            end in
  set__keypresses (_keypresses k1 ++ [kp]) k1.

(** A universal-key press that finds no multiplier tuple to extend. *)
Definition opens_multiplier (k : KeyEater) (kp : KeyPress) : bool :=
  takes_universal_path k kp && negb (is_tuple (_prefix_arg (deferred_reset k))).

(** What a digit key folds into the prefix argument: the digit 0. *)
Definition folded_zero (p : PrefixArg) : Z :=
  match p with
  | PInt n => 10 * n
  | _ => 0
  end.

(** The text [_num_update_prefix_arg] hands to [int]. *)
Definition folded_text (p : PrefixArg) (numstr : string) : string :=
  match p with
  | PInt n => py_str n +:+ numstr
  | _ => numstr
  end.

(** The digit table and the captured variable as [__init__] leaves them; no
    method assigns either afterwards. *)
Definition digit_table_as_built (k : KeyEater) : Prop :=
  _allowed_universal_keys k = _allowed_universal_keys (KeyEater.__init__ ∅)
  ∧ init_locals k = init_locals (KeyEater.__init__ ∅).

(** Appending one digit at the low end of a numeral. *)
Fixpoint uint_snoc (d : Decimal.uint) (c : Decimal.uint) : Decimal.uint :=
  match d with
  | Decimal.Nil => c
  | Decimal.D0 l => Decimal.D0 (uint_snoc l c)
  | Decimal.D1 l => Decimal.D1 (uint_snoc l c)
  | Decimal.D2 l => Decimal.D2 (uint_snoc l c)
  | Decimal.D3 l => Decimal.D3 (uint_snoc l c)
  | Decimal.D4 l => Decimal.D4 (uint_snoc l c)
  | Decimal.D5 l => Decimal.D5 (uint_snoc l c)
  | Decimal.D6 l => Decimal.D6 (uint_snoc l c)
  | Decimal.D7 l => Decimal.D7 (uint_snoc l c)
  | Decimal.D8 l => Decimal.D8 (uint_snoc l c)
  | Decimal.D9 l => Decimal.D9 (uint_snoc l c)
  end.

(** The numeral a one-character string denotes, if it is a digit. *)
Definition digit_of_char (c : ascii) : option Decimal.uint :=
  NilEmpty.uint_of_string (String c EmptyString).

(** ** The event redirector *)

Inductive QEventKind :=
| QEvent_KeyPress
| QEvent_KeyRelease.

(** [send_key_event]: the stored weak reference is followed if there is
    one, and a press then a release of [keypress] are posted to its
    referent if that object is still alive.  [alive] tells which objects
    are; the events posted to the application are the result, in order. *)
Definition send_key_event (alive : ObjId -> bool) (keypress : KeyPress)
  : Py (list (ObjId * KeyPress * QEventKind)) :=
  let* obj := read_key_eater current_obj in
  match obj with
  | None => mret []
  | Some o =>
      if alive o
      then mret [(o, keypress, QEvent_KeyPress); (o, keypress, QEvent_KeyRelease)]
      else mret []
  end.

(** ** More ways to read a run *)

(** The chords echoed to the minibuffer, read off an event log. *)
Definition echoes_of (evs : list Event) : list (list KeyPress) :=
  omap (fun e => if e is minibuffer_show_info c then Some c else None) evs.

(** The shapes a prefix argument takes: absent, a natural number, or a
    tuple holding 4, 16, 64, ... *)
Definition prefix_arg_shape (p : PrefixArg) : Prop :=
  match p with
  | PNone => True
  | PInt n => 0 <= n
  | PTuple n => exists m : nat, (1 <= m)%nat /\ n = 4 ^ Z.of_nat m
  end.

(** What [eventFilter] does to the local keymap, if anything. *)
Definition keymap_switch (s : LocalKeymapSetter) (obj : QObject) (t : QEventType)
  : option Keymap :=
  match t with
  | WindowActivate =>
      if bool_decide (obj_id obj ∈ _views s) then Some (obj_keymap obj) else None
  | FocusIn =>
      if bool_decide (obj_id obj ∈ _minibuffer_inputs s) then Some (obj_keymap obj) else None
  | FocusOut =>
      if bool_decide (obj_id obj ∈ _minibuffer_inputs s) && negb (popup_isVisible obj)
      then Some (window_current_web_view_keymap obj) else None
  | OtherEvent => None
  end.

(** Two views and a minibuffer input for the sample runs. *)
Definition view_a : QObject := mkQObject 10%positive g_g_keymap false no_bindings.
Definition view_b : QObject := mkQObject 11%positive prefixed_keymap false no_bindings.
Definition input_c : QObject := mkQObject 12%positive no_bindings true g_g_keymap.

(** The module with both views and the input registered. *)
Definition registered_world : World :=
  (LocalKeymapSetter.register_minibuffer_input 12%positive
     (LocalKeymapSetter.register_view 11%positive
        (LocalKeymapSetter.register_view 10%positive browsing_world).2).2).2.

(** The view 10 registered twice. *)
Definition twice_registered_world : World :=
  (LocalKeymapSetter.register_view 10%positive registered_world).2.

(** A registry that knows the raising command by the name [broken], and a
    keymap that binds [x] to that name. *)
Definition raising_commands : gmap string Callable := {[ "broken" := failing_command ]}.

Definition raising_keymap : Keymap :=
  mkKeymap "raising"
    (fun chord =>
       if decide (chord = [key_x])
       then Some (mkLookupResult true (CommandStr "broken"))
       else None).

Definition raising_world : World :=
  (set_local_keymap (Some raising_keymap) (module_loaded raising_commands no_bindings)).2.

(** [prefixed_world] once [x] has completed the chord and run the command:
    the prefix argument (4,) is still stored and its reset is armed. *)
Definition after_command_world : World :=
  (feed_all 1%positive [key_x] prefixed_world).2.

(** * Properties *)

(** ** Decimal numerals: [int(str(n) + d)] *)

Lemma uint_of_string_snoc (s : string) (c : ascii) (d dc : Decimal.uint) :
  NilEmpty.uint_of_string s = Some d ->
  digit_of_char c = Some dc ->
  NilEmpty.uint_of_string (s +:+ String c "") = Some (uint_snoc d dc).
Proof.
  intros Hs Hc. revert d Hs.
  induction s as [| a s IH]; intros d Hs.
  - simpl in Hs. injection Hs as <-. exact Hc.
  - change (String a s +:+ String c "") with (String a (s +:+ String c "")).
    cbn [NilEmpty.uint_of_string] in Hs |- *.
    destruct (NilEmpty.uint_of_string s) as [d0 |].
    + rewrite (IH d0 eq_refl).
      destruct a as [[] [] [] [] [] [] [] []]; simpl in Hs |- *;
        try discriminate; injection Hs as <-; reflexivity.
    + destruct a as [[] [] [] [] [] [] [] []]; simpl in Hs; discriminate.
Qed.

Lemma of_uint_acc_snoc (d dc : Decimal.uint) (acc : positive) :
  Decimal.nb_digits dc = 1%nat ->
  Z.pos (Pos.of_uint_acc (uint_snoc d dc) acc)
  = 10 * Z.pos (Pos.of_uint_acc d acc) + Z.of_uint dc.
Proof.
  intros Hdc. revert acc.
  induction d as [| l IH | l IH | l IH | l IH | l IH | l IH | l IH | l IH | l IH | l IH];
    intros acc; cbn [uint_snoc Pos.of_uint_acc]; try apply IH.
  destruct dc as [| [] | [] | [] | [] | [] | [] | [] | [] | [] | []];
    try discriminate; unfold Z.of_uint; simpl; lia.
Qed.

Lemma of_uint_snoc (d dc : Decimal.uint) :
  Decimal.nb_digits dc = 1%nat ->
  Z.of_uint (uint_snoc d dc) = 10 * Z.of_uint d + Z.of_uint dc.
Proof.
  intros Hdc. unfold Z.of_uint.
  induction d as [| l IH | l IH | l IH | l IH | l IH | l IH | l IH | l IH | l IH | l IH];
    cbn [uint_snoc Pos.of_uint]; try exact IH;
    try (rewrite !N2Z.inj_pos; apply of_uint_acc_snoc; exact Hdc).
  simpl. lia.
Qed.

Lemma digit_one (c : ascii) (dc : Decimal.uint) :
  digit_of_char c = Some dc -> Decimal.nb_digits dc = 1%nat.
Proof.
  unfold digit_of_char.
  destruct c as [[] [] [] [] [] [] [] []]; simpl; intros H;
    try discriminate; injection H as <-; reflexivity.
Qed.

(** The text of a non-empty numeral starts with a digit, not a sign. *)
Lemma string_of_uint_head (u : Decimal.uint) :
  u <> Decimal.Nil ->
  exists a s, NilEmpty.string_of_uint u = String a s /\ (a =? "-")%char = false.
Proof.
  destruct u; intros Hu; try congruence; simpl; eexists _, _; split; reflexivity.
Qed.

Lemma string_of_uint_nonnil (u : Decimal.uint) :
  u <> Decimal.Nil -> NilZero.string_of_uint u = NilEmpty.string_of_uint u.
Proof. destruct u; [congruence | reflexivity ..]. Qed.

Lemma int_of_digits_snoc (u dc : Decimal.uint) (c : ascii) :
  u <> Decimal.Nil ->
  digit_of_char c = Some dc ->
  NilZero.int_of_string (NilEmpty.string_of_uint u +:+ String c "")
  = Some (Decimal.Pos (uint_snoc u dc)).
Proof.
  intros Hu Hc.
  pose proof (uint_of_string_snoc _ c u dc (NilEmpty.usu u) Hc) as Hs.
  destruct (string_of_uint_head u Hu) as (a & s & Hus & Ha).
  rewrite Hus in Hs |- *.
  change (String a s +:+ String c "") with (String a (s +:+ String c "")) in Hs |- *.
  unfold NilZero.int_of_string. rewrite Ha.
  unfold NilZero.uint_of_string. by rewrite Hs.
Qed.

Lemma neg_int_of_digits_snoc (u dc : Decimal.uint) (c : ascii) :
  u <> Decimal.Nil ->
  digit_of_char c = Some dc ->
  NilZero.int_of_string (String "-" (NilEmpty.string_of_uint u) +:+ String c "")
  = Some (Decimal.Neg (uint_snoc u dc)).
Proof.
  intros Hu Hc.
  pose proof (uint_of_string_snoc _ c u dc (NilEmpty.usu u) Hc) as Hs.
  destruct (string_of_uint_head u Hu) as (a & s & Hus & Ha).
  rewrite Hus in Hs |- *.
  change (String "-" (String a s) +:+ String c "")
    with (String "-" (String a (s +:+ String c ""))).
  change (String a s +:+ String c "") with (String a (s +:+ String c "")) in Hs.
  unfold NilZero.int_of_string. simpl (("-" =? "-")%char).
  unfold NilZero.uint_of_string. by rewrite Hs.
Qed.

(** [int(str(n) + d)] for a digit [d]: the digit is appended to the
    numeral of [n]. *)
Lemma py_int_str_digit (n : Z) (c : ascii) (dc : Decimal.uint) :
  digit_of_char c = Some dc ->
  py_int (py_str n +:+ String c "")
  = Returns (if bool_decide (n < 0) then 10 * n - Z.of_uint dc else 10 * n + Z.of_uint dc).
Proof.
  intros Hc. pose proof (digit_one c dc Hc) as H1.
  unfold py_int, py_str.
  destruct n as [| p | p]; cbn [Z.to_int NilZero.string_of_int NilZero.string_of_uint].
  - rewrite (int_of_digits_snoc (Decimal.D0 Decimal.Nil) dc c); [| done | done].
    cbn [Z.of_int]. rewrite of_uint_snoc by done. done.
  - pose proof (Unsigned.to_uint_nonnil p) as Hp.
    rewrite (string_of_uint_nonnil _ Hp).
    rewrite (int_of_digits_snoc _ dc c Hp Hc).
    cbn [Z.of_int]. rewrite of_uint_snoc by done.
    unfold Z.of_uint at 1. rewrite DecimalPos.Unsigned.of_to.
    rewrite bool_decide_eq_false_2 by lia. done.
  - pose proof (Unsigned.to_uint_nonnil p) as Hp.
    rewrite (string_of_uint_nonnil _ Hp).
    rewrite (neg_int_of_digits_snoc _ dc c Hp Hc).
    cbn [Z.of_int]. rewrite of_uint_snoc by done.
    unfold Z.of_uint at 1. rewrite DecimalPos.Unsigned.of_to.
    rewrite bool_decide_eq_true_2 by lia. f_equal. lia.
Qed.

Lemma py_int_digit (c : ascii) (dc : Decimal.uint) :
  digit_of_char c = Some dc -> py_int (String c "") = Returns (Z.of_uint dc).
Proof.
  unfold digit_of_char, py_int.
  destruct c as [[] [] [] [] [] [] [] []]; simpl; intros H;
    try discriminate; injection H as <-; reflexivity.
Qed.

(** ** The dispatcher, branch by branch *)

Ltac py_unfold :=
  unfold bind, mbind, Py_bind, mret, Py_ret, raise, try_except, lift, emit,
    read_key_eater, update_key_eater, read_setter, update_setter,
    read_global_key_map in *.

Lemma world_eta (w : World) :
  mkWorld (KEY_EATER w) (LOCAL_KEYMAP_SETTER w) (global_key_map w) (events w) = w.
Proof. by destruct w. Qed.

Lemma key_eater_eta (k : KeyEater) :
  mkKeyEater (_keypresses k) (_commands k) (_local_key_map k) (current_obj k)
    (_use_global_keymap k) (universal_key k) (_prefix_arg k) (_reset_prefix_arg k)
    (_allowed_universal_keys k) (init_locals k) = k.
Proof. by destruct k. Qed.

Lemma add_events_app (e1 e2 : list Event) (w : World) :
  add_events e2 (add_events e1 w) = add_events (e1 ++ e2) w.
Proof. unfold add_events; simpl. by rewrite app_assoc. Qed.

Lemma add_events_nil (w : World) : add_events [] w = w.
Proof. unfold add_events. rewrite app_nil_r. apply world_eta. Qed.

(** A command dispatch inside the loop never escapes the [try]: whatever
    [_call_command] does, the loop goes on with the dispatcher unchanged. *)
Lemma call_command_caught (c : Command) (w : World) :
  try_except (KeyEater._call_command c) (fun e => emit (logging_exception e)) w
  = (Returns (), add_events (call_events (KEY_EATER w) c) w).
Proof.
  unfold KeyEater._call_command, KeyEater.call, call_events, run_events, add_events.
  py_unfold.
  destruct c as [name | f]; simpl.
  - destruct (_commands (KEY_EATER w) !! name) as [f |]; simpl.
    + destruct (callable_raises f); simpl; by rewrite <- ?app_assoc.
    + done.
  - destruct (callable_raises f); simpl; by rewrite <- ?app_assoc.
Qed.

Lemma lookup_step_eq (km : Keymap) (flags : bool * bool) (w : World) :
  KeyEater.lookup_step km flags w
  = (Returns (step_flags (_keypresses (KEY_EATER w)) km flags),
     add_events (step_events (KEY_EATER w) (_keypresses (KEY_EATER w)) km) w).
Proof.
  destruct flags as [inc called].
  unfold KeyEater.lookup_step, step_flags, step_events.
  unfold bind at 1, mbind at 1, Py_bind at 1, read_key_eater at 1. simpl.
  unfold mbind at 1, Py_bind at 1, emit at 1. simpl.
  destruct (lookup km (_keypresses (KEY_EATER w))) as [r |]; simpl.
  - destruct (complete r); simpl.
    + unfold mbind, Py_bind. rewrite call_command_caught. simpl.
      unfold mret, Py_ret, add_events. simpl. by rewrite <- app_assoc.
    + done.
  - done.
Qed.

Lemma loop_flags_from (chord : list KeyPress) (kms : list Keymap) (inc called : bool) :
  foldl (fun flags km => step_flags chord km flags) (inc, called) kms
  = (inc || existsb (reports_partial chord) kms,
     called || existsb (reports_complete chord) kms).
Proof.
  revert inc called.
  induction kms as [| km kms IH]; intros inc called; simpl.
  - by rewrite !orb_false_r.
  - unfold step_flags at 2, reports_partial at 1, reports_complete at 1.
    destruct (lookup km chord) as [r |]; simpl.
    + destruct (complete r); simpl; rewrite IH; simpl.
      * by rewrite orb_true_r.
      * by rewrite orb_true_r.
    + by rewrite IH.
Qed.

Lemma loop_flags_eq (chord : list KeyPress) (kms : list Keymap) :
  loop_flags chord kms
  = (existsb (reports_partial chord) kms, existsb (reports_complete chord) kms).
Proof. unfold loop_flags. by rewrite loop_flags_from. Qed.

Lemma for_active_keymaps_eq (flags : bool * bool) (w : World) :
  KeyEater.for_active_keymaps KeyEater.lookup_step flags w
  = (Returns (foldl (fun fl km => step_flags (_keypresses (KEY_EATER w)) km fl) flags
                (active_keymap_list w)),
     add_events (concat (step_events (KEY_EATER w) (_keypresses (KEY_EATER w))
                           <$> active_keymap_list w)) w).
Proof.
  unfold KeyEater.for_active_keymaps, active_keymap_list.
  unfold bind, read_key_eater, read_global_key_map, mbind, Py_bind. simpl.
  destruct (_local_key_map (KEY_EATER w)) as [l |]; simpl.
  - rewrite lookup_step_eq. simpl.
    destruct (_use_global_keymap (KEY_EATER w)); simpl.
    + rewrite lookup_step_eq. simpl. rewrite add_events_app.
      by rewrite app_nil_r.
    + by rewrite app_nil_r.
  - unfold mret, Py_ret.
    destruct (_use_global_keymap (KEY_EATER w)); simpl.
    + rewrite lookup_step_eq. by rewrite app_nil_r.
    + by rewrite add_events_nil.
Qed.

Lemma normal_lookup_eq (kp : KeyPress) (w : World) :
  KeyEater.normal_lookup kp w
  = (Returns (normal_lookup_result kp w).1, (normal_lookup_result kp w).2).
Proof.
  unfold KeyEater.normal_lookup, normal_lookup_result, KeyEater._add_keypress.
  unfold bind at 1, mbind at 1, Py_bind at 1.
  unfold bind, mbind, Py_bind, read_key_eater, update_key_eater, emit. simpl.
  match goal with
  | |- context [KeyEater.for_active_keymaps _ _ ?w1] =>
      rewrite (for_active_keymaps_eq (false, false) w1)
  end.
  simpl. unfold active_keymap_list. simpl.
  fold (active_keymap_list w).
  change (foldl _ (false, false) (active_keymap_list w))
    with (loop_flags (_keypresses (KEY_EATER w) ++ [kp]) (active_keymap_list w)).
  destruct (loop_flags _ _) as [inc called]. simpl.
  unfold finish_lookup, with_key_eater, add_events, mret, Py_ret. simpl.
  destruct called, inc; simpl; by rewrite <- ?app_assoc.
Qed.

Lemma handle_keypress_reset (kp : KeyPress) (w : World) :
  KeyEater._handle_keypress kp w
  = dispatch kp (with_key_eater (deferred_reset (KEY_EATER w)) w).
Proof.
  destruct w as [k s g evs].
  unfold KeyEater._handle_keypress, deferred_reset, with_key_eater.
  cbn [KEY_EATER LOCAL_KEYMAP_SETTER global_key_map events].
  unfold bind at 1, mbind at 1, Py_bind at 1, read_key_eater at 1.
  cbn [KEY_EATER].
  destruct (_reset_prefix_arg k) eqn:Hr; reflexivity.
Qed.

Lemma handle_keypress_universal (kp : KeyPress) (w : World) :
  takes_universal_path (KEY_EATER w) kp = true ->
  KeyEater._handle_keypress kp w
  = (Returns true,
     let k' := universal_result kp (deferred_reset (KEY_EATER w)) in
     add_events [minibuffer_show_info (_keypresses k')] (with_key_eater k' w)).
Proof.
  intros Hu. rewrite handle_keypress_reset.
  unfold takes_universal_path in Hu. apply bool_decide_eq_true in Hu.
  assert (Hk : universal_key (deferred_reset (KEY_EATER w)) = kp).
  { unfold deferred_reset. by destruct (_reset_prefix_arg (KEY_EATER w)). }
  generalize dependent (deferred_reset (KEY_EATER w)). intros k1 Hk.
  destruct w as [k s g evs]. unfold dispatch, with_key_eater, universal_result.
  cbn [KEY_EATER LOCAL_KEYMAP_SETTER global_key_map events].
  unfold bind at 1, mbind at 1, Py_bind at 1, read_key_eater at 1.
  cbn [KEY_EATER]. rewrite Hk. rewrite decide_True by done.
  unfold KeyEater._add_keypress, add_events. py_unfold. simpl.
  destruct (_prefix_arg k1); reflexivity.
Qed.

Lemma handle_keypress_digit (kp : KeyPress) (w : World) (var numstr : string) (v : Z) :
  let k1 := deferred_reset (KEY_EATER w) in
  takes_digit_path (KEY_EATER w) kp = true ->
  _allowed_universal_keys (KEY_EATER w) !! key kp = Some (Lambda_num_update_prefix_arg var) ->
  init_locals (KEY_EATER w) !! var = Some numstr ->
  py_int (folded_text (_prefix_arg k1) numstr) = Returns v ->
  KeyEater._handle_keypress kp w
  = (Returns true,
     let k' := set__keypresses (_keypresses k1 ++ [kp]) (set__prefix_arg (PInt v) k1) in
     add_events [minibuffer_show_info (_keypresses k')] (with_key_eater k' w)).
Proof.
  intros k1 Hd Ha Hl Hv. rewrite handle_keypress_reset. fold k1.
  unfold takes_digit_path, takes_universal_path in Hd. fold k1 in Hd.
  apply andb_prop in Hd as [Hd Hm]. apply andb_prop in Hd as [Hd _].
  apply andb_prop in Hd as [Hu Hp].
  apply negb_true_iff, bool_decide_eq_false in Hu.
  apply negb_true_iff in Hm.
  assert (Hk : universal_key k1 = universal_key (KEY_EATER w)
               /\ _allowed_universal_keys k1 = _allowed_universal_keys (KEY_EATER w)
               /\ init_locals k1 = init_locals (KEY_EATER w)).
  { unfold k1, deferred_reset. by destruct (_reset_prefix_arg (KEY_EATER w)). }
  destruct Hk as (Hk1 & Hk2 & Hk3). rewrite <- Hk1 in Hu. rewrite <- Hk2 in Ha.
  rewrite <- Hk3 in Hl.
  clearbody k1.
  destruct w as [k s g evs]. unfold dispatch, with_key_eater.
  cbn [KEY_EATER LOCAL_KEYMAP_SETTER global_key_map events].
  unfold bind at 1, mbind at 1, Py_bind at 1, read_key_eater at 1.
  cbn [KEY_EATER]. rewrite decide_False by done.
  unfold KeyEater.digit_extension, KeyEater.call_lambda, KeyEater._num_update_prefix_arg,
    KeyEater._add_keypress, add_events, folded_text in *.
  py_unfold. cbn [KEY_EATER]. rewrite Hp. cbn [KEY_EATER]. rewrite Ha, Hm.
  cbn [negb KEY_EATER]. rewrite Hl.
  cbn [KEY_EATER].
  destruct (_prefix_arg k1) eqn:Hpa; try discriminate; rewrite Hv; reflexivity.
Qed.

Lemma digit_extension_declines (kp : KeyPress) (w : World) :
  is_not_None (_prefix_arg (KEY_EATER w))
  && bool_decide (is_Some (_allowed_universal_keys (KEY_EATER w) !! key kp))
  && negb (has_any_modifier kp) = false ->
  KeyEater.digit_extension kp w = (Returns false, w).
Proof.
  intros H. unfold KeyEater.digit_extension. py_unfold. cbn [KEY_EATER].
  destruct (is_not_None (_prefix_arg (KEY_EATER w))); [| done].
  destruct (_allowed_universal_keys (KEY_EATER w) !! key kp) as [func |] eqn:Ha; [| done].
  rewrite bool_decide_eq_true_2 in H by eauto.
  simpl in H. by rewrite H.
Qed.

Lemma handle_keypress_normal (kp : KeyPress) (w : World) :
  takes_normal_path (KEY_EATER w) kp = true ->
  KeyEater._handle_keypress kp w
  = (let r := normal_lookup_result kp (with_key_eater (deferred_reset (KEY_EATER w)) w) in
     (Returns r.1, r.2)).
Proof.
  intros Hn. rewrite handle_keypress_reset.
  unfold takes_normal_path, takes_digit_path in Hn.
  apply andb_prop in Hn as [Hu Hd]. rewrite Hu in Hd. simpl in Hd.
  apply negb_true_iff in Hd.
  unfold takes_universal_path in Hu. apply negb_true_iff, bool_decide_eq_false in Hu.
  assert (Hk : universal_key (deferred_reset (KEY_EATER w)) = universal_key (KEY_EATER w)
               /\ _allowed_universal_keys (deferred_reset (KEY_EATER w))
                  = _allowed_universal_keys (KEY_EATER w)).
  { unfold deferred_reset. by destruct (_reset_prefix_arg (KEY_EATER w)). }
  destruct Hk as [Hk1 Hk2]. rewrite <- Hk1 in Hu. rewrite <- Hk2 in Hd.
  clear Hk1 Hk2.
  generalize dependent (deferred_reset (KEY_EATER w)). intros k1 Hu Hd.
  unfold dispatch.
  unfold bind at 1, mbind at 1, Py_bind at 1, read_key_eater at 1.
  cbn [KEY_EATER with_key_eater]. rewrite decide_False by done.
  unfold bind at 1, mbind at 1, Py_bind at 1.
  rewrite digit_extension_declines by done.
  apply normal_lookup_eq.
Qed.

Lemma event_filter_key (obj : ObjId) (kp : KeyPress) (w : World) :
  KeyEater.event_filter obj (mkQEvent (Some kp)) w
  = match KeyEater._handle_keypress kp (received obj w) with
    | (Returns handled, w') => (Returns (filter_result handled), w')
    | (Raises e, w') => (Raises e, w')
    end.
Proof.
  unfold KeyEater.event_filter, received, with_key_eater, filter_result.
  cbn [from_qevent]. py_unfold. cbn [KEY_EATER LOCAL_KEYMAP_SETTER global_key_map events].
  destruct (KeyEater._handle_keypress kp _) as [[[] | e] w']; reflexivity.
Qed.

Lemma event_filter_non_key (obj : ObjId) (w : World) :
  KeyEater.event_filter obj (mkQEvent None) w = (Returns (RetBool false), w).
Proof. reflexivity. Qed.

(** Recording the receiver changes neither the branch taken nor what the
    branches read. *)
Lemma received_key_eater (obj : ObjId) (w : World) :
  KEY_EATER (received obj w) = set_current_obj (Some obj) (KEY_EATER w).
Proof. reflexivity. Qed.

Lemma takes_universal_received (obj : ObjId) (kp : KeyPress) (w : World) :
  takes_universal_path (KEY_EATER (received obj w)) kp
  = takes_universal_path (KEY_EATER w) kp.
Proof. reflexivity. Qed.

Lemma takes_digit_received (obj : ObjId) (kp : KeyPress) (w : World) :
  takes_digit_path (KEY_EATER (received obj w)) kp = takes_digit_path (KEY_EATER w) kp.
Proof.
  unfold takes_digit_path, deferred_reset. cbn.
  by destruct (_reset_prefix_arg (KEY_EATER w)).
Qed.

Lemma takes_normal_received (obj : ObjId) (kp : KeyPress) (w : World) :
  takes_normal_path (KEY_EATER (received obj w)) kp = takes_normal_path (KEY_EATER w) kp.
Proof.
  unfold takes_normal_path. by rewrite takes_universal_received, takes_digit_received.
Qed.

(** One press of the universal key, through [event_filter]. *)
Lemma universal_press (obj : ObjId) (w : World) :
  let u := universal_key (KEY_EATER w) in
  exists w',
    KeyEater.event_filter obj (mkQEvent (Some u)) w = (Returns (RetBool true), w')
    /\ universal_key (KEY_EATER w') = u
    /\ _reset_prefix_arg (KEY_EATER w') = false
    /\ match _prefix_arg (deferred_reset (KEY_EATER w)) with
       | PTuple n =>
           _prefix_arg (KEY_EATER w') = PTuple (n * 4)
           /\ _keypresses (KEY_EATER w') = _keypresses (KEY_EATER w) ++ [u]
       | _ =>
           _prefix_arg (KEY_EATER w') = PTuple 4
           /\ _keypresses (KEY_EATER w') = [u]
       end.
Proof.
  intros u. rewrite event_filter_key.
  rewrite handle_keypress_universal
    by (rewrite takes_universal_received; apply bool_decide_eq_true_2; reflexivity).
  eexists. split; [reflexivity |].
  cbn [KEY_EATER add_events with_key_eater received].
  unfold universal_result, deferred_reset. cbn.
  destruct (_reset_prefix_arg (KEY_EATER w)) eqn:Hr; cbn.
  - done.
  - destruct (_prefix_arg (KEY_EATER w)); cbn; done.
Qed.

(** Further presses on an open multiplier. *)
Lemma universal_run (obj : ObjId) (n : nat) (w : World) (v : Z) :
  let u := universal_key (KEY_EATER w) in
  _prefix_arg (KEY_EATER w) = PTuple v ->
  _reset_prefix_arg (KEY_EATER w) = false ->
  exists w',
    feed_all obj (replicate n u) w = (Returns (replicate n (RetBool true)), w')
    /\ universal_key (KEY_EATER w') = u
    /\ _reset_prefix_arg (KEY_EATER w') = false
    /\ _prefix_arg (KEY_EATER w') = PTuple (v * 4 ^ Z.of_nat n)
    /\ _keypresses (KEY_EATER w') = _keypresses (KEY_EATER w) ++ replicate n u.
Proof.
  revert w v. induction n as [| n IH]; intros w v u Hp Hr.
  - exists w. cbn. rewrite Z.mul_1_r, app_nil_r. done.
  - destruct (universal_press obj w) as (w1 & Hf & Hu1 & Hr1 & Hstep).
    fold u in Hf, Hu1, Hstep.
    unfold deferred_reset in Hstep. rewrite Hr, Hp in Hstep.
    destruct Hstep as [Hp1 Hc1].
    destruct (IH w1 (v * 4) Hp1 Hr1) as (w' & Hrun & Hu' & Hr' & Hp' & Hc').
    rewrite Hu1 in Hrun, Hu', Hc'.
    exists w'. cbn [replicate feed_all].
    unfold bind at 1, mbind, Py_bind. rewrite Hf.
    unfold bind at 1, mbind, Py_bind. rewrite Hrun.
    split; [reflexivity |]. split; [done |]. split; [done |]. split.
    + rewrite Hp'. f_equal. rewrite Nat2Z.inj_succ, Z.pow_succ_r by lia. lia.
    + rewrite Hc', Hc1. by rewrite <- app_assoc.
Qed.

(** C5: pressing the universal key N >= 1 times in a row, the first press
    finding no open multiplier, returns true each time and leaves the prefix
    argument a one-element tuple holding 4^N; the first press makes it
    (4,) and drops the keys pending before it, and the echoed chord then
    holds the N presses. *)
Theorem universal_key_n_times (obj : ObjId) (N : nat) (w : World) :
  let u := universal_key (KEY_EATER w) in
  is_tuple (_prefix_arg (deferred_reset (KEY_EATER w))) = false ->
  (1 <= N)%nat ->
  exists w1 w',
    KeyEater.event_filter obj (mkQEvent (Some u)) w = (Returns (RetBool true), w1)
    /\ _prefix_arg (KEY_EATER w1) = PTuple 4
    /\ _keypresses (KEY_EATER w1) = [u]
    /\ feed_all obj (replicate N u) w = (Returns (replicate N (RetBool true)), w')
    /\ _prefix_arg (KEY_EATER w') = PTuple (4 ^ Z.of_nat N)
    /\ _keypresses (KEY_EATER w') = replicate N u.
Proof.
  intros u Ht HN.
  destruct N as [| n]; [lia |].
  destruct (universal_press obj w) as (w1 & Hf & Hu1 & Hr1 & Hstep). fold u in Hf, Hu1, Hstep.
  assert (Hopen : _prefix_arg (KEY_EATER w1) = PTuple 4 /\ _keypresses (KEY_EATER w1) = [u]).
  { destruct (_prefix_arg (deferred_reset (KEY_EATER w))); try done. }
  destruct Hopen as [Hp1 Hc1].
  destruct (universal_run obj n w1 4 Hp1 Hr1) as (w' & Hrun & _ & _ & Hp' & Hc').
  rewrite Hu1 in Hrun, Hc'.
  exists w1, w'. split; [done |]. split; [done |]. split; [done |].
  cbn [replicate feed_all].
  unfold bind at 1, mbind, Py_bind. rewrite Hf.
  unfold bind at 1, mbind, Py_bind. rewrite Hrun.
  split; [reflexivity |]. split.
  - rewrite Hp'. f_equal. rewrite Nat2Z.inj_succ, Z.pow_succ_r by lia. lia.
  - rewrite Hc', Hc1. reflexivity.
Qed.

Lemma universal_key_n_times_witness :
  is_tuple (_prefix_arg (deferred_reset (KEY_EATER pending_g_world))) = false
  /\ (1 <= 3)%nat
  /\ exists w1 w',
    KeyEater.event_filter 1%positive (mkQEvent (Some c_u)) pending_g_world
    = (Returns (RetBool true), w1)
    /\ _prefix_arg (KEY_EATER w1) = PTuple 4
    /\ _keypresses (KEY_EATER w1) = [c_u]
    /\ feed_all 1%positive (replicate 3 c_u) pending_g_world
       = (Returns (replicate 3 (RetBool true)), w')
    /\ _prefix_arg (KEY_EATER w') = PTuple (4 ^ Z.of_nat 3)
    /\ _keypresses (KEY_EATER w') = replicate 3 c_u.
Proof.
  split; [reflexivity |]. split; [lia |].
  apply (universal_key_n_times 1%positive 3 pending_g_world); [reflexivity | lia].
Defined.

(** ** The digit table built by [__init__] *)

Lemma init_loop_lambdas (chars : list ascii) (allowed : gmap Z Lambda)
    (locals : gmap string string) :
  map_Forall (fun _ f => f = Lambda_num_update_prefix_arg "i") allowed ->
  map_Forall (fun _ f => f = Lambda_num_update_prefix_arg "i")
    (KeyEater.init_loop chars allowed locals).1.
Proof.
  revert allowed locals.
  induction chars as [| c chars IH]; intros allowed locals Hall; cbn [KeyEater.init_loop].
  - done.
  - apply IH. by apply map_Forall_insert_2.
Qed.

(** After the loop the variable [i] holds the last character of the
    string, whatever key a lambda was stored under. *)
Lemma init_loop_last (chars : list ascii) (c : ascii) (allowed : gmap Z Lambda)
    (locals : gmap string string) :
  (KeyEater.init_loop (chars ++ [c]) allowed locals).2 !! "i" = Some (String c "").
Proof.
  revert allowed locals.
  induction chars as [| c' chars IH]; intros allowed locals; cbn [KeyEater.init_loop app].
  - cbn. apply lookup_insert_eq.
  - apply IH.
Qed.

Lemma as_built_lambda (k : KeyEater) (z : Z) (f : Lambda) :
  digit_table_as_built k ->
  _allowed_universal_keys k !! z = Some f ->
  f = Lambda_num_update_prefix_arg "i".
Proof.
  intros [Ha _] Hz. rewrite Ha in Hz.
  unfold KeyEater.__init__ in Hz.
  pose proof (init_loop_lambdas (list_ascii_of_string "1234567890") ∅ ∅) as Hall.
  destruct (KeyEater.init_loop _ _ _) as [allowed locals].
  cbn in Hz, Hall. eapply (Hall ltac:(apply map_Forall_empty)); eassumption.
Qed.

Lemma as_built_i (k : KeyEater) :
  digit_table_as_built k -> init_locals k !! "i" = Some "0".
Proof.
  intros [_ Hl]. rewrite Hl. unfold KeyEater.__init__.
  pose proof (init_loop_last (list_ascii_of_string "123456789") "0" ∅ ∅) as Hlast.
  change (list_ascii_of_string "123456789" ++ ["0"%char])
    with (list_ascii_of_string "1234567890") in Hlast.
  destruct (KeyEater.init_loop _ _ _) as [allowed locals]. exact Hlast.
Qed.

Lemma py_int_folded_zero (p : PrefixArg) :
  py_int (folded_text p "0") = Returns (folded_zero p).
Proof.
  destruct p as [| n | n]; try reflexivity.
  unfold folded_text, folded_zero.
  rewrite (py_int_str_digit n "0" (Decimal.D0 Decimal.Nil)) by reflexivity.
  f_equal. change (Z.of_uint (Decimal.D0 Decimal.Nil)) with 0.
  case_bool_decide; lia.
Qed.

(** One key press on the digit branch, through [event_filter]. *)
Lemma digit_press (obj : ObjId) (kp : KeyPress) (w : World) :
  digit_table_as_built (KEY_EATER w) ->
  takes_digit_path (KEY_EATER w) kp = true ->
  exists w',
    KeyEater.event_filter obj (mkQEvent (Some kp)) w = (Returns (RetBool true), w')
    /\ _prefix_arg (KEY_EATER w')
       = PInt (folded_zero (_prefix_arg (deferred_reset (KEY_EATER w))))
    /\ _keypresses (KEY_EATER w') = _keypresses (KEY_EATER w) ++ [kp]
    /\ _reset_prefix_arg (KEY_EATER w') = false
    /\ digit_table_as_built (KEY_EATER w')
    /\ universal_key (KEY_EATER w') = universal_key (KEY_EATER w)
    /\ events w' = events w ++ [minibuffer_show_info (_keypresses (KEY_EATER w'))].
Proof.
  intros Hb Hd. rewrite event_filter_key.
  assert (Hb' : digit_table_as_built (KEY_EATER (received obj w))) by exact Hb.
  rewrite <- (takes_digit_received obj) in Hd.
  pose proof Hd as Hd'. unfold takes_digit_path in Hd'.
  apply andb_prop in Hd' as [Hd' _]. apply andb_prop in Hd' as [_ Hin].
  apply bool_decide_eq_true in Hin as [f Hf].
  pose proof (as_built_lambda _ _ _ Hb' Hf) as ->.
  rewrite (handle_keypress_digit kp (received obj w) "i" "0" _ Hd Hf (as_built_i _ Hb')
             (py_int_folded_zero _)).
  eexists. split; [reflexivity |].
  cbn [KEY_EATER add_events with_key_eater received events].
  destruct Hb as [Hb1 Hb2].
  unfold deferred_reset, digit_table_as_built.
  cbn -[KeyEater.__init__].
  destruct (_reset_prefix_arg (KEY_EATER w)) eqn:Hr; cbn -[KeyEater.__init__]; done.
Qed.

Lemma universal_press_echo (obj : ObjId) (w : World) :
  let u := universal_key (KEY_EATER w) in
  exists w',
    KeyEater.event_filter obj (mkQEvent (Some u)) w = (Returns (RetBool true), w')
    /\ _keypresses (KEY_EATER w')
       = (if opens_multiplier (KEY_EATER w) u then [] else _keypresses (KEY_EATER w)) ++ [u]
    /\ events w' = events w ++ [minibuffer_show_info (_keypresses (KEY_EATER w'))]
    /\ (digit_table_as_built (KEY_EATER w) -> digit_table_as_built (KEY_EATER w')).
Proof.
  intros u. rewrite event_filter_key.
  rewrite handle_keypress_universal
    by (rewrite takes_universal_received; apply bool_decide_eq_true_2; reflexivity).
  eexists. split; [reflexivity |].
  cbn [KEY_EATER add_events with_key_eater received events].
  unfold opens_multiplier, takes_universal_path. fold u.
  rewrite bool_decide_eq_true_2 by done.
  unfold universal_result, deferred_reset, digit_table_as_built.
  cbn -[KeyEater.__init__].
  destruct (_reset_prefix_arg (KEY_EATER w)) eqn:Hr; cbn -[KeyEater.__init__].
  - done.
  - destruct (_prefix_arg (KEY_EATER w)); cbn -[KeyEater.__init__]; done.
Qed.

(** C6, as the code has it: a key handled by the universal-key branch or the
    digit branch is appended to the pending chord, the one list that is
    echoed and later handed to keymap lookup.  A universal press that opens
    a new multiplier empties the chord first, so the chord then holds that
    key alone; every other universal or digit press extends the chord by
    that key. *)
Theorem prefix_keys_join_chord (obj : ObjId) (kp : KeyPress) (w : World) :
  digit_table_as_built (KEY_EATER w) ->
  takes_universal_path (KEY_EATER w) kp || takes_digit_path (KEY_EATER w) kp = true ->
  exists w',
    KeyEater.event_filter obj (mkQEvent (Some kp)) w = (Returns (RetBool true), w')
    /\ _keypresses (KEY_EATER w')
       = (if opens_multiplier (KEY_EATER w) kp then [] else _keypresses (KEY_EATER w)) ++ [kp]
    /\ events w' = events w ++ [minibuffer_show_info (_keypresses (KEY_EATER w'))].
Proof.
  intros Hb Hpath.
  destruct (takes_universal_path (KEY_EATER w) kp) eqn:Hu.
  - pose proof Hu as Heq. unfold takes_universal_path in Heq.
    apply bool_decide_eq_true in Heq. subst kp.
    destruct (universal_press_echo obj w) as (w' & Hf & Hc & He & _).
    exists w'. done.
  - simpl in Hpath.
    destruct (digit_press obj kp w Hb Hpath) as (w' & Hf & _ & Hc & _ & _ & _ & He).
    exists w'. unfold opens_multiplier. rewrite Hu. done.
Qed.

Lemma prefix_keys_join_chord_witness :
  digit_table_as_built (KEY_EATER pending_g_world)
  /\ takes_universal_path (KEY_EATER pending_g_world) c_u
     || takes_digit_path (KEY_EATER pending_g_world) c_u = true
  /\ exists w',
    KeyEater.event_filter 1%positive (mkQEvent (Some c_u)) pending_g_world
    = (Returns (RetBool true), w')
    /\ _keypresses (KEY_EATER w')
       = (if opens_multiplier (KEY_EATER pending_g_world) c_u
          then [] else _keypresses (KEY_EATER pending_g_world)) ++ [c_u]
    /\ events w' = events pending_g_world ++ [minibuffer_show_info (_keypresses (KEY_EATER w'))].
Proof.
  assert (Hb : digit_table_as_built (KEY_EATER pending_g_world)) by (split; reflexivity).
  split; [exact Hb |]. split; [reflexivity |].
  apply (prefix_keys_join_chord 1%positive c_u pending_g_world Hb). reflexivity.
Defined.

(** C6 as stated fails: after universal, universal, 3, 7 the pending chord
    holds the four keys, and the next key is looked up with them in front. *)
Lemma prefix_keys_populate_chord :
  _keypresses (KEY_EATER after_prefix_keys) = [c_u; c_u; plain_key "3"; plain_key "7"]
  /\ lookups_of (events (feed_all 1%positive [key_x] after_prefix_keys).2)
     = [("empty"%string, [c_u; c_u; plain_key "3"; plain_key "7"; key_x])].
Proof. split; reflexivity. Qed.

(** [_num_update_prefix_arg] itself, called with a digit, folds it
    decimally: the first digit replaces what is not an [int], the next ones
    are appended to the numeral. *)
Lemma num_update_prefix_arg_digit (c : ascii) (dc : Decimal.uint) (w : World) :
  digit_of_char c = Some dc ->
  KeyEater._num_update_prefix_arg (String c "") w
  = (Returns (),
     with_key_eater
       (set__prefix_arg
          (PInt match _prefix_arg (KEY_EATER w) with
                | PInt n => if bool_decide (n < 0) then 10 * n - Z.of_uint dc
                            else 10 * n + Z.of_uint dc
                | _ => Z.of_uint dc
                end) (KEY_EATER w)) w).
Proof.
  intros Hc. unfold KeyEater._num_update_prefix_arg. py_unfold. cbn [KEY_EATER].
  destruct (_prefix_arg (KEY_EATER w)) as [| n | n].
  - by rewrite (py_int_digit c dc Hc).
  - by rewrite (py_int_str_digit n c dc Hc).
  - by rewrite (py_int_digit c dc Hc).
Qed.

Example num_update_1_then_2 :
  _prefix_arg
    (KEY_EATER
       (KeyEater._num_update_prefix_arg "2"
          (KeyEater._num_update_prefix_arg "1" after_universal).2).2)
  = PInt 12.
Proof. reflexivity. Qed.

(** C1 on the code: every lambda of the digit table reads the variable [i]
    when it is called, and [i] is "0" once the loop of [__init__] has ended.
    After one universal press the digits 1 and 2 leave the prefix argument
    at the integer 0, not 12; after two universal presses the digits 3 and
    7 leave it at 0, not 37. *)
Theorem digit_keys_fold_zero (COMMANDS : gmap string Callable) (global : Keymap)
    (obj : ObjId) :
  _prefix_arg (KEY_EATER (feed_all obj [c_u; plain_key "1"; plain_key "2"]
                            (module_loaded COMMANDS global)).2) = PInt 0
  /\ _prefix_arg (KEY_EATER (feed_all obj [c_u; c_u; plain_key "3"; plain_key "7"]
                               (module_loaded COMMANDS global)).2) = PInt 0
  /\ init_locals (KeyEater.__init__ COMMANDS) !! "i" = Some "0"%string
  /\ _allowed_universal_keys (KeyEater.__init__ COMMANDS) !! CHAR2KEY "1"
     = Some (Lambda_num_update_prefix_arg "i")
  /\ _allowed_universal_keys (KeyEater.__init__ COMMANDS) !! CHAR2KEY "2"
     = Some (Lambda_num_update_prefix_arg "i").
Proof. repeat split; reflexivity. Qed.

(** ** The normal path *)

Lemma deferred_reset_frame (k : KeyEater) :
  _keypresses (deferred_reset k) = _keypresses k
  /\ _commands (deferred_reset k) = _commands k
  /\ _local_key_map (deferred_reset k) = _local_key_map k
  /\ current_obj (deferred_reset k) = current_obj k
  /\ _use_global_keymap (deferred_reset k) = _use_global_keymap k
  /\ universal_key (deferred_reset k) = universal_key k
  /\ _reset_prefix_arg (deferred_reset k) = false
  /\ _allowed_universal_keys (deferred_reset k) = _allowed_universal_keys k
  /\ init_locals (deferred_reset k) = init_locals k.
Proof. unfold deferred_reset. destruct (_reset_prefix_arg k) eqn:Hr; cbn; done. Qed.

(** One key press on the normal path, through [event_filter]. *)
Lemma normal_press (obj : ObjId) (kp : KeyPress) (w : World) :
  takes_normal_path (KEY_EATER w) kp = true ->
  KeyEater.event_filter obj (mkQEvent (Some kp)) w
  = (Returns (filter_result (command_found w kp || partial_found w kp)),
     let k1 := set__keypresses (chord_with w kp)
                 (deferred_reset (set_current_obj (Some obj) (KEY_EATER w))) in
     with_key_eater (finish_lookup (partial_found w kp) (command_found w kp) k1)
       (add_events
          (minibuffer_show_info (chord_with w kp)
           :: concat (step_events k1 (chord_with w kp) <$> active_keymap_list w)) w)).
Proof.
  intros Hn. rewrite event_filter_key.
  rewrite handle_keypress_normal by (by rewrite takes_normal_received).
  rewrite received_key_eater. cbv zeta.
  destruct (deferred_reset_frame (set_current_obj (Some obj) (KEY_EATER w)))
    as (Hc & _ & Hl & _ & Hg & _).
  set (k0 := deferred_reset (set_current_obj (Some obj) (KEY_EATER w))) in *.
  assert (Ha : active_keymap_list (with_key_eater k0 (received obj w))
               = active_keymap_list w).
  { unfold active_keymap_list. cbn [KEY_EATER with_key_eater received global_key_map].
    by rewrite Hl, Hg. }
  unfold normal_lookup_result. rewrite Ha.
  cbn [KEY_EATER with_key_eater]. rewrite Hc.
  cbn [set_current_obj _keypresses]. fold (chord_with w kp).
  rewrite loop_flags_eq. fold (command_found w kp) (partial_found w kp).
  reflexivity.
Qed.

Lemma lookups_of_app (e1 e2 : list Event) :
  lookups_of (e1 ++ e2) = lookups_of e1 ++ lookups_of e2.
Proof. apply omap_app. Qed.

Lemma calls_of_app (e1 e2 : list Event) :
  calls_of (e1 ++ e2) = calls_of e1 ++ calls_of e2.
Proof. apply omap_app. Qed.

Lemma lookups_of_call_events (k : KeyEater) (c : Command) :
  lookups_of (call_events k c) = [].
Proof.
  unfold call_events, run_events.
  destruct c as [name | f]; [destruct (_commands k !! name) as [f |] |];
    try destruct (callable_raises f); reflexivity.
Qed.

Lemma lookups_of_step_events (k : KeyEater) (chord : list KeyPress) (km : Keymap) :
  lookups_of (step_events k chord km) = [(keymap_name km, chord)].
Proof.
  unfold step_events. cbn [lookups_of omap].
  change (omap _ ?l) with (lookups_of l).
  destruct (lookup km chord) as [r |]; [destruct (complete r) |]; cbn;
    by rewrite ?lookups_of_call_events.
Qed.

Lemma lookups_of_steps (k : KeyEater) (chord : list KeyPress) (kms : list Keymap) :
  lookups_of (concat (step_events k chord <$> kms))
  = (fun km => (keymap_name km, chord)) <$> kms.
Proof.
  induction kms as [| km kms IH]; [done |].
  cbn [fmap list_fmap concat].
  rewrite lookups_of_app, lookups_of_step_events. cbn. f_equal. exact IH.
Qed.

Lemma calls_of_call_events (k : KeyEater) (c : Command) :
  calls_of (call_events k c)
  = match resolve k c with
    | Some f => [(f, _prefix_arg k)]
    | None => []
    end.
Proof.
  unfold call_events, run_events, resolve.
  destruct c as [name | f]; [destruct (_commands k !! name) as [f |] |];
    try destruct (callable_raises f); reflexivity.
Qed.

Lemma calls_of_step_events (k : KeyEater) (chord : list KeyPress) (km : Keymap) :
  calls_of (step_events k chord km)
  = match lookup km chord with
    | Some r => if complete r
                then match resolve k (command r) with
                     | Some f => [(f, _prefix_arg k)]
                     | None => []
                     end
                else []
    | None => []
    end.
Proof.
  unfold step_events. cbn [calls_of omap].
  change (omap _ ?l) with (calls_of l).
  destruct (lookup km chord) as [r |]; [destruct (complete r) |]; cbn;
    by rewrite ?calls_of_call_events.
Qed.

(** Every command invoked in one pass reads the same prefix argument. *)
Lemma calls_of_steps_prefix (k : KeyEater) (chord : list KeyPress) (kms : list Keymap)
    (f : Callable) (p : PrefixArg) :
  (f, p) ∈ calls_of (concat (step_events k chord <$> kms)) -> p = _prefix_arg k.
Proof.
  induction kms as [| km kms IH]; cbn [fmap list_fmap concat].
  - intros H. by apply elem_of_nil in H.
  - rewrite calls_of_app, calls_of_step_events. intros [H | H]%elem_of_app; [| by apply IH].
    destruct (lookup km chord) as [r |]; [destruct (complete r) |];
      try (by apply elem_of_nil in H).
    destruct (resolve k (command r)); [| by apply elem_of_nil in H].
    apply list_elem_of_singleton in H. congruence.
Qed.

Lemma calls_of_steps_none (k : KeyEater) (chord : list KeyPress) (kms : list Keymap) :
  existsb (reports_complete chord) kms = false ->
  calls_of (concat (step_events k chord <$> kms)) = [].
Proof.
  induction kms as [| km kms IH]; [done |].
  cbn [existsb fmap list_fmap concat]. intros [H1 H2]%orb_false_elim.
  rewrite calls_of_app, calls_of_step_events, (IH H2).
  unfold reports_complete in H1.
  destruct (lookup km chord) as [r |]; [| done]. by rewrite H1.
Qed.

Lemma miss_iff (chord : list KeyPress) (kms : list Keymap) :
  forallb (reports_nothing chord) kms
  = negb (existsb (reports_complete chord) kms || existsb (reports_partial chord) kms).
Proof.
  induction kms as [| km kms IH]; [done |].
  cbn [forallb existsb]. rewrite IH.
  unfold reports_nothing, reports_complete, reports_partial.
  destruct (lookup km chord) as [r |]; [destruct (complete r) |]; cbn;
    by rewrite ?orb_true_r.
Qed.

(** C2: on the normal lookup path [event_filter] returns [True] as soon as a
    command was called or an active keymap reported a partial match.  It
    returns a false value only on a full miss, every active keymap having
    answered "no match", and on a full miss it does return one ([None],
    where [_handle_keypress] returned [False]): the pending chord is then
    empty and no command ran.  A complete match empties the chord as
    well.  When partial matches are all there is, the pending chord keeps
    the keys pressed so far, in order, the new key last. *)
Theorem feed_result_on_lookup (obj : ObjId) (kp : KeyPress) (w : World) :
  takes_normal_path (KEY_EATER w) kp = true ->
  exists r w' new,
    KeyEater.event_filter obj (mkQEvent (Some kp)) w = (Returns r, w')
    /\ events w' = events w ++ new
    /\ (command_found w kp || partial_found w kp = true -> r = RetBool true)
    /\ (truthy r = false ->
        r = RetNone
        /\ full_miss w kp = true
        /\ command_found w kp = false
        /\ _keypresses (KEY_EATER w') = []
        /\ calls_of new = [])
    /\ (command_found w kp = false -> partial_found w kp = true ->
        _keypresses (KEY_EATER w') = _keypresses (KEY_EATER w) ++ [kp])
    /\ r = filter_result (command_found w kp || partial_found w kp)
    /\ full_miss w kp = negb (command_found w kp || partial_found w kp)
    /\ (full_miss w kp = true ->
        r = RetNone
        /\ truthy r = false
        /\ _keypresses (KEY_EATER w') = []
        /\ calls_of new = [])
    /\ (command_found w kp = true ->
        r = RetBool true /\ _keypresses (KEY_EATER w') = [])
    /\ (calls_of new <> [] ->
        r = RetBool true /\ _keypresses (KEY_EATER w') = [])
    /\ (command_found w kp = false -> partial_found w kp = true ->
        r = RetBool true /\ calls_of new = []).
Proof.
  intros Hn. rewrite (normal_press obj kp w Hn).
  eexists _, _, _. split; [reflexivity |].
  cbn [events add_events with_key_eater KEY_EATER].
  split; [reflexivity |].
  change (calls_of (minibuffer_show_info ?c :: ?evs)) with (calls_of evs).
  unfold full_miss. rewrite miss_iff. fold (command_found w kp) (partial_found w kp).
  pose proof (calls_of_steps_none
                (set__keypresses (chord_with w kp)
                   (deferred_reset (set_current_obj (Some obj) (KEY_EATER w))))
                (chord_with w kp) (active_keymap_list w)) as Hnocall.
  fold (command_found w kp) in Hnocall.
  destruct (command_found w kp) eqn:Hc, (partial_found w kp) eqn:Hp;
    cbn; repeat split; intros; try done; try (by apply Hnocall);
    try (exfalso; match goal with H : _ <> [] |- _ => apply H; by apply Hnocall end).
Qed.

Lemma feed_result_on_lookup_witness :
  takes_normal_path (KEY_EATER pending_g_world) key_x = true
  /\ full_miss pending_g_world key_x = true
  /\ takes_normal_path (KEY_EATER browsing_world) key_g = true
  /\ command_found browsing_world key_g = false
  /\ partial_found browsing_world key_g = true
  /\ (exists r w' new,
        KeyEater.event_filter 1%positive (mkQEvent (Some key_x)) pending_g_world
        = (Returns r, w')
        /\ events w' = events pending_g_world ++ new
        /\ r = RetNone
        /\ truthy r = false
        /\ _keypresses (KEY_EATER w') = []
        /\ calls_of new = [])
  /\ (exists r w' new,
        KeyEater.event_filter 1%positive (mkQEvent (Some key_g)) browsing_world
        = (Returns r, w')
        /\ events w' = events browsing_world ++ new
        /\ r = RetBool true
        /\ _keypresses (KEY_EATER w') = _keypresses (KEY_EATER browsing_world) ++ [key_g]
        /\ calls_of new = []).
Proof.
  split; [reflexivity |]. split; [reflexivity |]. split; [reflexivity |].
  split; [reflexivity |]. split; [reflexivity |]. split.
  - destruct (feed_result_on_lookup 1%positive key_x pending_g_world eq_refl)
      as (r & w' & new & Hf & He & _ & _ & _ & _ & _ & Hmiss & _).
    destruct (Hmiss eq_refl) as (Hr & Ht & Hk & Hcalls).
    exists r, w', new. repeat (split; [assumption |]). assumption.
  - destruct (feed_result_on_lookup 1%positive key_g browsing_world eq_refl)
      as (r & w' & new & Hf & He & _ & _ & Hkeep & _ & _ & _ & _ & _ & Hpart).
    destruct (Hpart eq_refl eq_refl) as (Hr & Hcalls).
    exists r, w', new. split; [exact Hf |]. split; [exact He |]. split; [exact Hr |].
    split; [exact (Hkeep eq_refl eq_refl) | exact Hcalls].
Defined.

(** The scenario of the specification: [g] is a partial match, the chord
    [g] stays pending; the second [g] completes it, the command runs and
    the chord is empty again; a key bound nowhere is a full miss. *)
Example g_then_g :
  (feed_all 1%positive [key_g] browsing_world).1 = Returns [RetBool true]
  /\ _keypresses (KEY_EATER pending_g_world) = [key_g]
  /\ (feed_all 1%positive [key_g] pending_g_world).1 = Returns [RetBool true]
  /\ _keypresses (KEY_EATER (feed_all 1%positive [key_g] pending_g_world).2) = []
  /\ (feed_all 1%positive [c_u; key_x] sample_world).1 = Returns [RetBool true; RetNone].
Proof. repeat split; reflexivity. Qed.

(** C3: on the normal path every active keymap, the local one first if it
    is set and then the global one if it is enabled, is queried with the
    whole pending chord, whatever the earlier keymaps answered.  When both
    report a complete match, both commands are invoked, the local one
    first. *)
Theorem every_active_keymap_queried (obj : ObjId) (kp : KeyPress) (w : World) :
  takes_normal_path (KEY_EATER w) kp = true ->
  exists r w' new,
    KeyEater.event_filter obj (mkQEvent (Some kp)) w = (Returns r, w')
    /\ events w' = events w ++ new
    /\ lookups_of new
       = (fun km => (keymap_name km, _keypresses (KEY_EATER w) ++ [kp])) <$> active_keymap_list w
    /\ forall l c1 c2 f1 f2,
        _local_key_map (KEY_EATER w) = Some l ->
        _use_global_keymap (KEY_EATER w) = true ->
        lookup l (_keypresses (KEY_EATER w) ++ [kp]) = Some (mkLookupResult true c1) ->
        lookup (global_key_map w) (_keypresses (KEY_EATER w) ++ [kp])
        = Some (mkLookupResult true c2) ->
        resolve (KEY_EATER w) c1 = Some f1 ->
        resolve (KEY_EATER w) c2 = Some f2 ->
        (calls_of new).*1 = [f1; f2].
Proof.
  intros Hn. rewrite (normal_press obj kp w Hn).
  eexists _, _, _. split; [reflexivity |].
  cbn [events add_events with_key_eater KEY_EATER].
  split; [reflexivity |]. split.
  - cbn [lookups_of omap]. change (omap _ ?l) with (lookups_of l).
    apply lookups_of_steps.
  - intros l c1 c2 f1 f2 Hl Hg H1 H2 Hf1 Hf2.
    change (calls_of (minibuffer_show_info ?c :: ?evs)) with (calls_of evs).
    unfold active_keymap_list. rewrite Hl, Hg.
    cbn [app fmap list_fmap concat].
    rewrite !calls_of_app, !calls_of_step_events. unfold chord_with.
    rewrite H1, H2. cbn [complete command].
    assert (Hres : forall c, resolve (set__keypresses (_keypresses (KEY_EATER w) ++ [kp])
                                (deferred_reset (set_current_obj (Some obj) (KEY_EATER w)))) c
                             = resolve (KEY_EATER w) c).
    { intros c. unfold resolve, deferred_reset.
      destruct c; [| done]. by destruct (_reset_prefix_arg _). }
    rewrite !Hres, Hf1, Hf2. reflexivity.
Qed.

Lemma every_active_keymap_queried_witness :
  takes_normal_path (KEY_EATER pending_g_world) key_g = true
  /\ exists r w' new,
    KeyEater.event_filter 1%positive (mkQEvent (Some key_g)) pending_g_world = (Returns r, w')
    /\ events w' = events pending_g_world ++ new
    /\ lookups_of new = [("local"%string, [key_g; key_g]); ("global"%string, [key_g; key_g])]
    /\ (calls_of new).*1 = [scroll_top; failing_command].
Proof.
  split; [reflexivity |].
  destruct (every_active_keymap_queried 1%positive key_g pending_g_world eq_refl)
    as (r & w' & new & Hf & He & Hl & Hboth).
  exists r, w', new. split; [exact Hf |]. split; [exact He |]. split; [exact Hl |].
  apply (Hboth g_g_keymap (CommandStr "scroll-top") (CommandCallable failing_command));
    reflexivity.
Defined.

(** What any key press that called a command leaves behind: the chord is
    empty and the deferred reset is armed; the prefix argument is as the
    command found it. *)
Lemma command_found_state (obj : ObjId) (kp : KeyPress) (w : World) :
  takes_normal_path (KEY_EATER w) kp = true ->
  command_found w kp = true ->
  exists w' new,
    KeyEater.event_filter obj (mkQEvent (Some kp)) w = (Returns (RetBool true), w')
    /\ events w' = events w ++ new
    /\ KEY_EATER w'
       = set__reset_prefix_arg true
           (set__keypresses [] (deferred_reset (set_current_obj (Some obj) (KEY_EATER w))))
    /\ new = minibuffer_show_info (chord_with w kp)
             :: concat (step_events
                          (set__keypresses (chord_with w kp)
                             (deferred_reset (set_current_obj (Some obj) (KEY_EATER w))))
                          (chord_with w kp) <$> active_keymap_list w).
Proof.
  intros Hn Hc. rewrite (normal_press obj kp w Hn). rewrite Hc.
  eexists _, _. split; [reflexivity |].
  cbn [events add_events with_key_eater KEY_EATER].
  split; [reflexivity |]. split; [| reflexivity].
  unfold finish_lookup. cbn [orb]. reflexivity.
Qed.

(** C4: a command invoked by a key press reads, while it runs, the prefix
    argument that is still there when the key press has been handled;
    reading it through [current_prefix_arg()] changes nothing, nor does an
    event that is not a key press.  The reset is only armed: it is carried
    out as the first step of handling the next key press. *)
Theorem prefix_arg_survives_command (obj : ObjId) (kp : KeyPress) (w : World) :
  takes_normal_path (KEY_EATER w) kp = true ->
  command_found w kp = true ->
  exists w' new,
    KeyEater.event_filter obj (mkQEvent (Some kp)) w = (Returns (RetBool true), w')
    /\ events w' = events w ++ new
    /\ (forall f p, (f, p) ∈ calls_of new -> p = _prefix_arg (KEY_EATER w'))
    /\ _prefix_arg (KEY_EATER w') = _prefix_arg (deferred_reset (KEY_EATER w))
    /\ _reset_prefix_arg (KEY_EATER w') = true
    /\ current_prefix_arg w' = (Returns (_prefix_arg (KEY_EATER w')), w')
    /\ (forall obj', KeyEater.event_filter obj' (mkQEvent None) w' = (Returns (RetBool false), w'))
    /\ (forall kp',
          KeyEater._handle_keypress kp' w'
          = dispatch kp'
              (with_key_eater
                 (set__prefix_arg PNone (set__reset_prefix_arg false (KEY_EATER w'))) w')).
Proof.
  intros Hn Hc.
  destruct (command_found_state obj kp w Hn Hc) as (w' & new & Hf & He & Hk & Hnew).
  exists w', new. split; [exact Hf |]. split; [exact He |].
  assert (Hp : _prefix_arg (KEY_EATER w') = _prefix_arg (deferred_reset (KEY_EATER w))).
  { rewrite Hk. cbn. unfold deferred_reset. cbn.
    by destruct (_reset_prefix_arg (KEY_EATER w)). }
  assert (Hr : _reset_prefix_arg (KEY_EATER w') = true) by (by rewrite Hk).
  split.
  - intros f p Hin. rewrite Hnew in Hin.
    change (calls_of (minibuffer_show_info ?c :: ?evs)) with (calls_of evs) in Hin.
    apply calls_of_steps_prefix in Hin. rewrite Hin, Hp. cbn.
    unfold deferred_reset. cbn. by destruct (_reset_prefix_arg (KEY_EATER w)).
  - split; [exact Hp |]. split; [exact Hr |]. split; [reflexivity |].
    split; [reflexivity |].
    intros kp'. rewrite handle_keypress_reset. unfold deferred_reset. by rewrite Hr.
Qed.

Lemma prefix_arg_survives_command_witness :
  takes_normal_path (KEY_EATER prefixed_world) key_x = true
  /\ command_found prefixed_world key_x = true
  /\ exists w' new,
    KeyEater.event_filter 1%positive (mkQEvent (Some key_x)) prefixed_world
    = (Returns (RetBool true), w')
    /\ events w' = events prefixed_world ++ new
    /\ (forall f p, (f, p) ∈ calls_of new -> p = _prefix_arg (KEY_EATER w'))
    /\ _prefix_arg (KEY_EATER w') = _prefix_arg (deferred_reset (KEY_EATER prefixed_world))
    /\ _reset_prefix_arg (KEY_EATER w') = true
    /\ current_prefix_arg w' = (Returns (_prefix_arg (KEY_EATER w')), w')
    /\ (forall obj', KeyEater.event_filter obj' (mkQEvent None) w' = (Returns (RetBool false), w'))
    /\ (forall kp',
          KeyEater._handle_keypress kp' w'
          = dispatch kp'
              (with_key_eater
                 (set__prefix_arg PNone (set__reset_prefix_arg false (KEY_EATER w'))) w')).
Proof.
  split; [reflexivity |]. split; [reflexivity |].
  apply (prefix_arg_survives_command 1%positive key_x prefixed_world); reflexivity.
Defined.

Example command_reads_prefix_arg :
  calls_of (events (feed_all 1%positive [key_x] prefixed_world).2) = [(scroll_top, PTuple 4)]
  /\ _prefix_arg (KEY_EATER (feed_all 1%positive [key_x] prefixed_world).2) = PTuple 4
  /\ _prefix_arg (KEY_EATER (feed_all 1%positive [key_x; key_x] prefixed_world).2) = PNone.
Proof. repeat split; reflexivity. Qed.

(** C7: a name the registry does not know makes [_call_command] raise
    [KeyError("No such command: ...")] to its caller, with nothing run and
    nothing changed.  In the dispatch loop that caller logs the error and
    goes on: the remaining keymaps are still queried, and the key press
    ends as one that called a command, with the chord empty, the deferred
    reset armed and [True] returned. *)
Theorem unknown_command_raised_then_logged (obj : ObjId) (kp : KeyPress) (w : World)
    (name : string) (km : Keymap) :
  _commands (KEY_EATER w) !! name = None ->
  takes_normal_path (KEY_EATER w) kp = true ->
  km ∈ active_keymap_list w ->
  lookup km (_keypresses (KEY_EATER w) ++ [kp]) = Some (mkLookupResult true (CommandStr name)) ->
  KeyEater._call_command (CommandStr name) w
  = (Raises (KeyError ("No such command: " +:+ name)), w)
  /\ exists w' new,
    KeyEater.event_filter obj (mkQEvent (Some kp)) w = (Returns (RetBool true), w')
    /\ events w' = events w ++ new
    /\ logging_exception (KeyError ("No such command: " +:+ name)) ∈ new
    /\ lookups_of new
       = (fun km => (keymap_name km, _keypresses (KEY_EATER w) ++ [kp])) <$> active_keymap_list w
    /\ KEY_EATER w'
       = set__reset_prefix_arg true
           (set__keypresses [] (deferred_reset (set_current_obj (Some obj) (KEY_EATER w)))).
Proof.
  intros Hname Hn Hkm Hlook. split.
  - unfold KeyEater._call_command. py_unfold. cbn [KEY_EATER]. by rewrite Hname.
  - assert (Hc : command_found w kp = true).
    { unfold command_found. apply existsb_exists. exists km. split.
      - by apply list_elem_of_In.
      - unfold reports_complete, chord_with. by rewrite Hlook. }
    destruct (command_found_state obj kp w Hn Hc) as (w' & new & Hf & He & Hk & Hnew).
    exists w', new. split; [exact Hf |]. split; [exact He |].
    split; [| split; [| exact Hk]].
    + rewrite Hnew. apply list_elem_of_In. right. apply in_concat.
      eexists. split.
      * apply in_map_iff. exists km. split; [reflexivity |]. by apply list_elem_of_In.
      * unfold step_events, chord_with. rewrite Hlook. cbn [complete command call_events].
        assert (Hreg : _commands (set__keypresses (_keypresses (KEY_EATER w) ++ [kp])
                                    (deferred_reset (set_current_obj (Some obj) (KEY_EATER w))))
                       = _commands (KEY_EATER w)).
        { unfold deferred_reset. cbn. by destruct (_reset_prefix_arg (KEY_EATER w)). }
        rewrite Hreg, Hname. right. left. reflexivity.
    + rewrite Hnew. cbn [lookups_of omap]. change (omap _ ?l) with (lookups_of l).
      apply lookups_of_steps.
Qed.

Lemma unknown_command_raised_then_logged_witness :
  _commands (KEY_EATER unknown_x_world) !! "no-such" = None
  /\ takes_normal_path (KEY_EATER unknown_x_world) key_x = true
  /\ sample_global ∈ active_keymap_list unknown_x_world
  /\ lookup sample_global (_keypresses (KEY_EATER unknown_x_world) ++ [key_x])
     = Some (mkLookupResult true (CommandStr "no-such"))
  /\ KeyEater._call_command (CommandStr "no-such") unknown_x_world
     = (Raises (KeyError "No such command: no-such"), unknown_x_world)
  /\ exists w' new,
    KeyEater.event_filter 1%positive (mkQEvent (Some key_x)) unknown_x_world
    = (Returns (RetBool true), w')
    /\ events w' = events unknown_x_world ++ new
    /\ logging_exception (KeyError "No such command: no-such") ∈ new
    /\ lookups_of new
       = (fun km => (keymap_name km, _keypresses (KEY_EATER unknown_x_world) ++ [key_x]))
         <$> active_keymap_list unknown_x_world
    /\ KEY_EATER w'
       = set__reset_prefix_arg true
           (set__keypresses []
              (deferred_reset (set_current_obj (Some 1%positive) (KEY_EATER unknown_x_world)))).
Proof.
  assert (Hin : sample_global ∈ active_keymap_list unknown_x_world)
    by (apply list_elem_of_singleton; reflexivity).
  split; [reflexivity |]. split; [reflexivity |]. split; [exact Hin |].
  split; [reflexivity |].
  apply (unknown_command_raised_then_logged 1%positive key_x unknown_x_world "no-such"
           sample_global); [reflexivity | reflexivity | exact Hin | reflexivity].
Defined.

(** ** Switching the local keymap *)

(** The keymaps queried by one key press on the normal path. *)
Lemma normal_press_lookups (obj : ObjId) (kp : KeyPress) (w : World) :
  takes_normal_path (KEY_EATER w) kp = true ->
  exists r w' new,
    KeyEater.event_filter obj (mkQEvent (Some kp)) w = (Returns r, w')
    /\ events w' = events w ++ new
    /\ lookups_of new
       = (fun km => (keymap_name km, _keypresses (KEY_EATER w) ++ [kp])) <$> active_keymap_list w.
Proof.
  intros Hn. rewrite (normal_press obj kp w Hn).
  eexists _, _, _. split; [reflexivity |].
  cbn [events add_events with_key_eater KEY_EATER].
  split; [reflexivity |].
  cbn [lookups_of omap]. change (omap _ ?l) with (lookups_of l).
  apply lookups_of_steps.
Qed.

(** C10: [set_local_keymap] replaces the local keymap and nothing else, so
    the keys of a chord begun under another keymap stay pending, and the
    next key press on the normal path is looked up, old keys in front, in
    the new keymap. *)
Theorem set_local_keymap_frame (keymap : option Keymap) (w : World) :
  exists w',
    set_local_keymap keymap w = (Returns (), w')
    /\ _local_key_map (KEY_EATER w') = keymap
    /\ _keypresses (KEY_EATER w') = _keypresses (KEY_EATER w)
    /\ _prefix_arg (KEY_EATER w') = _prefix_arg (KEY_EATER w)
    /\ _reset_prefix_arg (KEY_EATER w') = _reset_prefix_arg (KEY_EATER w)
    /\ _use_global_keymap (KEY_EATER w') = _use_global_keymap (KEY_EATER w)
    /\ current_obj (KEY_EATER w') = current_obj (KEY_EATER w)
    /\ _commands (KEY_EATER w') = _commands (KEY_EATER w)
    /\ universal_key (KEY_EATER w') = universal_key (KEY_EATER w)
    /\ _allowed_universal_keys (KEY_EATER w') = _allowed_universal_keys (KEY_EATER w)
    /\ init_locals (KEY_EATER w') = init_locals (KEY_EATER w)
    /\ LOCAL_KEYMAP_SETTER w' = LOCAL_KEYMAP_SETTER w
    /\ global_key_map w' = global_key_map w
    /\ events w' = events w
    /\ forall obj kp km,
        keymap = Some km ->
        takes_normal_path (KEY_EATER w) kp = true ->
        exists r w'' new,
          KeyEater.event_filter obj (mkQEvent (Some kp)) w' = (Returns r, w'')
          /\ events w'' = events w ++ new
          /\ head (lookups_of new) = Some (keymap_name km, _keypresses (KEY_EATER w) ++ [kp]).
Proof.
  eexists. split; [reflexivity |].
  cbn [KEY_EATER LOCAL_KEYMAP_SETTER global_key_map events set__local_key_map
         _local_key_map _keypresses _prefix_arg _reset_prefix_arg _use_global_keymap
         current_obj _commands universal_key _allowed_universal_keys init_locals].
  repeat (split; [reflexivity |]).
  intros obj kp km -> Hn.
  match goal with |- context [KeyEater.event_filter _ _ ?w1] => set (w' := w1) end.
  assert (Hn' : takes_normal_path (KEY_EATER w') kp = true).
  { unfold takes_normal_path, takes_digit_path, takes_universal_path, deferred_reset in *.
    cbn in *. destruct (_reset_prefix_arg (KEY_EATER w)); exact Hn. }
  destruct (normal_press_lookups obj kp w' Hn') as (r & w'' & new & Hf & He & Hl).
  exists r, w'', new. split; [exact Hf |]. split; [exact He |].
  rewrite Hl. reflexivity.
Qed.

Lemma set_local_keymap_frame_witness :
  exists w',
    set_local_keymap (Some prefixed_keymap) pending_g_world = (Returns (), w')
    /\ _local_key_map (KEY_EATER w') = Some prefixed_keymap
    /\ _keypresses (KEY_EATER w') = [key_g]
    /\ exists r w'' new,
        KeyEater.event_filter 1%positive (mkQEvent (Some key_x)) w' = (Returns r, w'')
        /\ events w'' = events pending_g_world ++ new
        /\ head (lookups_of new) = Some ("prefixed"%string, [key_g; key_x]).
Proof.
  destruct (set_local_keymap_frame (Some prefixed_keymap) pending_g_world)
    as (w' & Hs & Hl & Hk & _ & _ & _ & _ & _ & _ & _ & _ & _ & _ & _ & Hnext).
  exists w'. split; [exact Hs |]. split; [exact Hl |]. split; [exact Hk |].
  apply (Hnext 1%positive key_x prefixed_keymap); reflexivity.
Defined.

(** ** class LocalKeymapSetter *)

Lemma list_remove_absent `{EqDecision A} (x : A) (l : list A) :
  x ∉ l -> list_remove x l = None.
Proof.
  induction l as [| y l IH]; [done |].
  intros [Hxy Hl]%not_elem_of_cons. cbn.
  rewrite decide_False by done. by rewrite IH.
Qed.

Lemma list_remove_present `{EqDecision A} (x : A) (l : list A) :
  x ∈ l -> exists l', list_remove x l = Some l' /\ length l = S (length l').
Proof.
  induction l as [| y l IH]; [by intros ?%elem_of_nil |].
  intros Hin. cbn. destruct (decide (y = x)) as [-> | Hne].
  - eauto.
  - apply elem_of_cons in Hin as [-> | Hin]; [done |].
    destruct (IH Hin) as (l' & -> & Hlen). cbn. eexists. split; [done |]. cbn. lia.
Qed.

(** C8 as stated fails: the destruction event of a view that was never
    registered raises [ValueError]; so does the one of a modal input. *)
Lemma destroyed_unregistered_raises :
  LocalKeymapSetter.view_destroyed 7%positive sample_world
  = (Raises (ValueError "list.remove(x): x not in list"), sample_world)
  /\ LocalKeymapSetter._minibuffer_input_destroyed 7%positive sample_world
     = (Raises (ValueError "list.remove(x): x not in list"), sample_world).
Proof. split; reflexivity. Qed.

(** C8, as the code has it: for a view or a modal input that is not in its
    registry, the destruction event raises the [ValueError] of
    [list.remove] and leaves the registries, the local keymap and all the
    rest unchanged. *)
Theorem destroyed_unregistered (obj : ObjId) (w : World) :
  (obj ∉ _views (LOCAL_KEYMAP_SETTER w) ->
   LocalKeymapSetter.view_destroyed obj w
   = (Raises (ValueError "list.remove(x): x not in list"), w))
  /\ (obj ∉ _minibuffer_inputs (LOCAL_KEYMAP_SETTER w) ->
      LocalKeymapSetter._minibuffer_input_destroyed obj w
      = (Raises (ValueError "list.remove(x): x not in list"), w)).
Proof.
  split; intros Hnot.
  - unfold LocalKeymapSetter.view_destroyed. py_unfold.
    by rewrite (list_remove_absent _ _ Hnot).
  - unfold LocalKeymapSetter._minibuffer_input_destroyed. py_unfold.
    by rewrite (list_remove_absent _ _ Hnot).
Qed.

Lemma destroyed_unregistered_witness :
  (3%positive ∉ _views (LOCAL_KEYMAP_SETTER deregistered_world))
  /\ (3%positive ∉ _minibuffer_inputs (LOCAL_KEYMAP_SETTER deregistered_world))
  /\ LocalKeymapSetter.view_destroyed 3%positive deregistered_world
     = (Raises (ValueError "list.remove(x): x not in list"), deregistered_world)
  /\ LocalKeymapSetter._minibuffer_input_destroyed 3%positive deregistered_world
     = (Raises (ValueError "list.remove(x): x not in list"), deregistered_world).
Proof.
  assert (H1 : 3%positive ∉ _views (LOCAL_KEYMAP_SETTER deregistered_world))
    by apply not_elem_of_nil.
  assert (H2 : 3%positive ∉ _minibuffer_inputs (LOCAL_KEYMAP_SETTER deregistered_world))
    by apply not_elem_of_nil.
  split; [exact H1 |]. split; [exact H2 |].
  destruct (destroyed_unregistered 3%positive deregistered_world) as [Hv Hi].
  split; [exact (Hv H1) | exact (Hi H2)].
Defined.

(** C9: when editable content gains focus the local keymap becomes the
    content-edit keymap of the buffer shown in the window; when it loses
    focus the local keymap becomes that buffer's normal keymap, unless the
    minibuffer input holds the focus, in which case nothing changes. *)
Theorem web_content_edit_focus (window : Window) (w : World) :
  LocalKeymapSetter.web_content_edit_focus_changed window true w
  = (Returns (),
     with_key_eater
       (set__local_key_map (Some (content_edit_keymap (current_web_view_buffer window)))
          (KEY_EATER w)) w)
  /\ LocalKeymapSetter.web_content_edit_focus_changed window false w
     = (Returns (),
        if minibuffer_input_hasFocus window then w
        else with_key_eater
               (set__local_key_map (Some (buffer_keymap (current_web_view_buffer window)))
                  (KEY_EATER w)) w).
Proof.
  split; [reflexivity |].
  unfold LocalKeymapSetter.web_content_edit_focus_changed.
  destruct (minibuffer_input_hasFocus window); reflexivity.
Qed.

(** ** What every reachable dispatcher satisfies *)

Lemma active_keymaps_eq (w : World) :
  KeyEater.active_keymaps w = (Returns (active_keymap_list w), w).
Proof. reflexivity. Qed.

Lemma module_loaded_as_built (COMMANDS : gmap string Callable) (global : Keymap) :
  digit_table_as_built (KEY_EATER (module_loaded COMMANDS global)).
Proof. split; reflexivity. Qed.

Lemma finish_lookup_as_built (inc called : bool) (k : KeyEater) :
  digit_table_as_built k -> digit_table_as_built (finish_lookup inc called k).
Proof. unfold finish_lookup, digit_table_as_built. by destruct called, inc. Qed.

(** Whatever is delivered, [event_filter] returns, and the digit table and
    the variable its lambdas read stay as [__init__] left them. *)
Lemma event_filter_keeps_digit_table (obj : ObjId) (event : QEvent) (w : World) :
  digit_table_as_built (KEY_EATER w) ->
  exists r w',
    KeyEater.event_filter obj event w = (Returns r, w')
    /\ digit_table_as_built (KEY_EATER w').
Proof.
  intros Hb. destruct event as [[kp |]].
  - destruct (takes_universal_path (KEY_EATER w) kp) eqn:Hu.
    + pose proof Hu as Heq. apply bool_decide_eq_true in Heq. subst kp.
      destruct (universal_press_echo obj w) as (w' & Hf & _ & _ & Hk).
      exists (RetBool true), w'. split; [exact Hf | by apply Hk].
    + destruct (takes_digit_path (KEY_EATER w) kp) eqn:Hd.
      * destruct (digit_press obj kp w Hb Hd) as (w' & Hf & _ & _ & _ & Hk & _).
        exists (RetBool true), w'. done.
      * rewrite (normal_press obj kp w) by (unfold takes_normal_path; by rewrite Hu, Hd).
        eexists _, _. split; [reflexivity |].
        cbn [KEY_EATER with_key_eater]. apply finish_lookup_as_built.
        destruct (deferred_reset_frame (set_current_obj (Some obj) (KEY_EATER w)))
          as (_ & _ & _ & _ & _ & _ & _ & Ha & Hl).
        destruct Hb as [Hb1 Hb2]. split; cbn -[KeyEater.__init__].
        -- by rewrite Ha.
        -- by rewrite Hl.
  - exists (RetBool false), w. done.
Qed.

Lemma feed_all_keeps_digit_table (obj : ObjId) (keys : list KeyPress) (w : World) :
  digit_table_as_built (KEY_EATER w) ->
  exists rs w',
    feed_all obj keys w = (Returns rs, w')
    /\ length rs = length keys
    /\ digit_table_as_built (KEY_EATER w').
Proof.
  revert w. induction keys as [| kp keys IH]; intros w Hb.
  - exists [], w. done.
  - destruct (event_filter_keeps_digit_table obj (mkQEvent (Some kp)) w Hb)
      as (r & w1 & Hf & Hb1).
    destruct (IH w1 Hb1) as (rs & w' & Hrun & Hlen & Hb').
    exists (r :: rs), w'. cbn [feed_all].
    unfold bind at 1, mbind, Py_bind. rewrite Hf.
    unfold bind at 1, mbind, Py_bind. rewrite Hrun.
    split; [reflexivity |]. split; [cbn; by rewrite Hlen | exact Hb'].
Qed.

(** * Further properties *)

(** ** The registries of the keymap switcher *)

Lemma list_remove_app_fresh `{EqDecision A} (x : A) (l : list A) :
  x ∉ l -> list_remove x (l ++ [x]) = Some l.
Proof.
  induction l as [| y l IH]; cbn.
  - intros _. by rewrite decide_True.
  - intros [Hxy Hl]%not_elem_of_cons.
    rewrite decide_False by done. by rewrite (IH Hl).
Qed.

Lemma list_remove_split `{EqDecision A} (x : A) (l : list A) :
  x ∈ l ->
  exists l1 l2, l = l1 ++ x :: l2 /\ (x ∉ l1) /\ list_remove x l = Some (l1 ++ l2).
Proof.
  induction l as [| y l IH]; [by intros ?%elem_of_nil |].
  intros Hin. cbn. destruct (decide (y = x)) as [-> | Hne].
  - exists [], l. split; [done |]. split; [apply not_elem_of_nil | done].
  - apply elem_of_cons in Hin as [-> | Hin]; [done |].
    destruct (IH Hin) as (l1 & l2 & -> & Hl1 & ->).
    exists (y :: l1), l2. split; [done |]. split; [| done].
    apply not_elem_of_cons. split; [congruence | done].
Qed.

(** X1: registering an object that is not yet in the registry and then
    delivering its destruction event gives back the world as it was, for
    views and for minibuffer inputs alike. *)
Theorem register_then_destroyed (obj : ObjId) (w : World) :
  (obj ∉ _views (LOCAL_KEYMAP_SETTER w) ->
   LocalKeymapSetter.view_destroyed obj (LocalKeymapSetter.register_view obj w).2
   = (Returns (), w))
  /\ (obj ∉ _minibuffer_inputs (LOCAL_KEYMAP_SETTER w) ->
      LocalKeymapSetter._minibuffer_input_destroyed obj
        (LocalKeymapSetter.register_minibuffer_input obj w).2
      = (Returns (), w)).
Proof.
  destruct w as [k [vs ins cur] gl evs]. cbn [LOCAL_KEYMAP_SETTER _views _minibuffer_inputs].
  split; intros Hnot.
  - unfold LocalKeymapSetter.view_destroyed, LocalKeymapSetter.register_view.
    py_unfold. cbn [fst snd LOCAL_KEYMAP_SETTER _views set__views].
    by rewrite (list_remove_app_fresh _ _ Hnot).
  - unfold LocalKeymapSetter._minibuffer_input_destroyed,
      LocalKeymapSetter.register_minibuffer_input.
    py_unfold. cbn [fst snd LOCAL_KEYMAP_SETTER _minibuffer_inputs set__minibuffer_inputs].
    by rewrite (list_remove_app_fresh _ _ Hnot).
Qed.

Lemma register_then_destroyed_witness :
  (5%positive ∉ _views (LOCAL_KEYMAP_SETTER registered_world))
  /\ (5%positive ∉ _minibuffer_inputs (LOCAL_KEYMAP_SETTER registered_world))
  /\ LocalKeymapSetter.view_destroyed 5%positive
       (LocalKeymapSetter.register_view 5%positive registered_world).2
     = (Returns (), registered_world)
  /\ LocalKeymapSetter._minibuffer_input_destroyed 5%positive
       (LocalKeymapSetter.register_minibuffer_input 5%positive registered_world).2
     = (Returns (), registered_world).
Proof.
  assert (H1 : 5%positive ∉ _views (LOCAL_KEYMAP_SETTER registered_world))
    by (apply (proj1 (bool_decide_eq_false _)); reflexivity).
  assert (H2 : 5%positive ∉ _minibuffer_inputs (LOCAL_KEYMAP_SETTER registered_world))
    by (apply (proj1 (bool_decide_eq_false _)); reflexivity).
  split; [exact H1 |]. split; [exact H2 |].
  destruct (register_then_destroyed 5%positive registered_world) as [Hv Hi].
  split; [exact (Hv H1) | exact (Hi H2)].
Defined.

(** X2: the destruction event of a registered object removes its first
    registration and nothing else: the other registrations keep their
    order, an object registered twice is still registered once, and the
    dispatcher (its local keymap included), the other registry and the
    event log are untouched. *)
Theorem destroyed_registered (obj : ObjId) (w : World) :
  (obj ∈ _views (LOCAL_KEYMAP_SETTER w) ->
   exists l1 l2,
     _views (LOCAL_KEYMAP_SETTER w) = l1 ++ obj :: l2
     /\ (obj ∉ l1)
     /\ LocalKeymapSetter.view_destroyed obj w
        = (Returns (),
           mkWorld (KEY_EATER w) (set__views (l1 ++ l2) (LOCAL_KEYMAP_SETTER w))
             (global_key_map w) (events w)))
  /\ (obj ∈ _minibuffer_inputs (LOCAL_KEYMAP_SETTER w) ->
      exists l1 l2,
        _minibuffer_inputs (LOCAL_KEYMAP_SETTER w) = l1 ++ obj :: l2
        /\ (obj ∉ l1)
        /\ LocalKeymapSetter._minibuffer_input_destroyed obj w
           = (Returns (),
              mkWorld (KEY_EATER w)
                (set__minibuffer_inputs (l1 ++ l2) (LOCAL_KEYMAP_SETTER w))
                (global_key_map w) (events w))).
Proof.
  split; intros Hin.
  - destruct (list_remove_split _ _ Hin) as (l1 & l2 & Hl & Hl1 & Hrm).
    exists l1, l2. split; [exact Hl |]. split; [exact Hl1 |].
    unfold LocalKeymapSetter.view_destroyed. py_unfold. by rewrite Hrm.
  - destruct (list_remove_split _ _ Hin) as (l1 & l2 & Hl & Hl1 & Hrm).
    exists l1, l2. split; [exact Hl |]. split; [exact Hl1 |].
    unfold LocalKeymapSetter._minibuffer_input_destroyed. py_unfold. by rewrite Hrm.
Qed.

Lemma destroyed_registered_witness :
  (10%positive ∈ _views (LOCAL_KEYMAP_SETTER twice_registered_world))
  /\ (12%positive ∈ _minibuffer_inputs (LOCAL_KEYMAP_SETTER twice_registered_world))
  /\ (exists l1 l2,
        _views (LOCAL_KEYMAP_SETTER twice_registered_world) = l1 ++ 10%positive :: l2
        /\ (10%positive ∉ l1)
        /\ LocalKeymapSetter.view_destroyed 10%positive twice_registered_world
           = (Returns (),
              mkWorld (KEY_EATER twice_registered_world)
                (set__views (l1 ++ l2) (LOCAL_KEYMAP_SETTER twice_registered_world))
                (global_key_map twice_registered_world) (events twice_registered_world)))
  /\ (exists l1 l2,
        _minibuffer_inputs (LOCAL_KEYMAP_SETTER twice_registered_world)
        = l1 ++ 12%positive :: l2
        /\ (12%positive ∉ l1)
        /\ LocalKeymapSetter._minibuffer_input_destroyed 12%positive twice_registered_world
           = (Returns (),
              mkWorld (KEY_EATER twice_registered_world)
                (set__minibuffer_inputs (l1 ++ l2) (LOCAL_KEYMAP_SETTER twice_registered_world))
                (global_key_map twice_registered_world) (events twice_registered_world))).
Proof.
  assert (H1 : 10%positive ∈ _views (LOCAL_KEYMAP_SETTER twice_registered_world))
    by (apply (proj1 (bool_decide_eq_true _)); reflexivity).
  assert (H2 : 12%positive ∈ _minibuffer_inputs (LOCAL_KEYMAP_SETTER twice_registered_world))
    by (apply (proj1 (bool_decide_eq_true _)); reflexivity).
  split; [exact H1 |]. split; [exact H2 |].
  destruct (destroyed_registered 10%positive twice_registered_world) as [Hv _].
  destruct (destroyed_registered 12%positive twice_registered_world) as [_ Hi].
  split; [exact (Hv H1) | exact (Hi H2)].
Defined.

Example destroyed_once_of_twice :
  _views (LOCAL_KEYMAP_SETTER
            (LocalKeymapSetter.view_destroyed 10%positive twice_registered_world).2)
  = [11%positive; 10%positive].
Proof. reflexivity. Qed.

(** ** [eventFilter] *)

(** What [eventFilter] does, in one equation: it never consumes the event,
    and the only thing it may change is the local keymap. *)
Lemma eventFilter_eq (obj : QObject) (t : QEventType) (w : World) :
  LocalKeymapSetter.eventFilter obj t w
  = (Returns false,
     match keymap_switch (LOCAL_KEYMAP_SETTER w) obj t with
     | Some km => with_key_eater (set__local_key_map (Some km) (KEY_EATER w)) w
     | None => w
     end).
Proof.
  unfold LocalKeymapSetter.eventFilter, keymap_switch, set_local_keymap,
    KeyEater.set_local_key_map, with_key_eater.
  py_unfold. cbn [LOCAL_KEYMAP_SETTER].
  destruct t; cbn [LOCAL_KEYMAP_SETTER]; try reflexivity.
  - by destruct (bool_decide (obj_id obj ∈ _views (LOCAL_KEYMAP_SETTER w))).
  - by destruct (bool_decide (obj_id obj ∈ _minibuffer_inputs (LOCAL_KEYMAP_SETTER w))).
  - destruct (bool_decide (obj_id obj ∈ _minibuffer_inputs (LOCAL_KEYMAP_SETTER w)));
      [| reflexivity].
    by destruct (popup_isVisible obj).
Qed.

(** X3: an object in neither registry moves nothing: whatever event it
    receives, [eventFilter] returns [False] and leaves the world as it
    was.  The same holds for a registered minibuffer input that loses the
    focus while its popup is visible. *)
Theorem eventFilter_inert (obj : QObject) (t : QEventType) (w : World) :
  (obj_id obj ∉ _views (LOCAL_KEYMAP_SETTER w) ->
   obj_id obj ∉ _minibuffer_inputs (LOCAL_KEYMAP_SETTER w) ->
   LocalKeymapSetter.eventFilter obj t w = (Returns false, w))
  /\ (popup_isVisible obj = true ->
      LocalKeymapSetter.eventFilter obj FocusOut w = (Returns false, w)).
Proof.
  split.
  - intros Hv Hi. rewrite eventFilter_eq. unfold keymap_switch.
    rewrite !(bool_decide_eq_false_2 _ Hv), !(bool_decide_eq_false_2 _ Hi).
    by destruct t.
  - intros Hp. rewrite eventFilter_eq. unfold keymap_switch. rewrite Hp.
    by rewrite andb_false_r.
Qed.

Lemma eventFilter_inert_witness :
  (obj_id view_a ∉ _views (LOCAL_KEYMAP_SETTER browsing_world))
  /\ (obj_id view_a ∉ _minibuffer_inputs (LOCAL_KEYMAP_SETTER browsing_world))
  /\ popup_isVisible input_c = true
  /\ LocalKeymapSetter.eventFilter view_a WindowActivate browsing_world
     = (Returns false, browsing_world)
  /\ LocalKeymapSetter.eventFilter input_c FocusOut registered_world
     = (Returns false, registered_world).
Proof.
  assert (H1 : obj_id view_a ∉ _views (LOCAL_KEYMAP_SETTER browsing_world))
    by apply not_elem_of_nil.
  assert (H2 : obj_id view_a ∉ _minibuffer_inputs (LOCAL_KEYMAP_SETTER browsing_world))
    by apply not_elem_of_nil.
  split; [exact H1 |]. split; [exact H2 |]. split; [reflexivity |].
  split.
  - exact (proj1 (eventFilter_inert view_a WindowActivate browsing_world) H1 H2).
  - exact (proj2 (eventFilter_inert input_c FocusOut registered_world) eq_refl).
Defined.

(** X4: activating a registered view makes its keymap the local one, and
    the last activation wins: after view A then view B were activated the
    world is the one B's activation alone gives, with nothing left of A. *)
Theorem last_activation_wins (a b : QObject) (w : World) :
  obj_id a ∈ _views (LOCAL_KEYMAP_SETTER w) ->
  obj_id b ∈ _views (LOCAL_KEYMAP_SETTER w) ->
  LocalKeymapSetter.eventFilter b WindowActivate
    (LocalKeymapSetter.eventFilter a WindowActivate w).2
  = LocalKeymapSetter.eventFilter b WindowActivate w
  /\ local_keymap (LocalKeymapSetter.eventFilter b WindowActivate w).2
     = (Returns (Some (obj_keymap b)), (LocalKeymapSetter.eventFilter b WindowActivate w).2).
Proof.
  intros Ha Hb. rewrite !eventFilter_eq. cbn [snd]. unfold keymap_switch.
  rewrite (bool_decide_eq_true_2 _ Ha).
  cbn [LOCAL_KEYMAP_SETTER with_key_eater].
  rewrite (bool_decide_eq_true_2 _ Hb). split; reflexivity.
Qed.

Lemma last_activation_wins_witness :
  (obj_id view_a ∈ _views (LOCAL_KEYMAP_SETTER registered_world))
  /\ (obj_id view_b ∈ _views (LOCAL_KEYMAP_SETTER registered_world))
  /\ LocalKeymapSetter.eventFilter view_b WindowActivate
       (LocalKeymapSetter.eventFilter view_a WindowActivate registered_world).2
     = LocalKeymapSetter.eventFilter view_b WindowActivate registered_world
  /\ local_keymap (LocalKeymapSetter.eventFilter view_b WindowActivate registered_world).2
     = (Returns (Some (obj_keymap view_b)),
        (LocalKeymapSetter.eventFilter view_b WindowActivate registered_world).2).
Proof.
  assert (H1 : obj_id view_a ∈ _views (LOCAL_KEYMAP_SETTER registered_world))
    by (apply (proj1 (bool_decide_eq_true _)); reflexivity).
  assert (H2 : obj_id view_b ∈ _views (LOCAL_KEYMAP_SETTER registered_world))
    by (apply (proj1 (bool_decide_eq_true _)); reflexivity).
  split; [exact H1 |]. split; [exact H2 |].
  exact (last_activation_wins view_a view_b registered_world H1 H2).
Defined.

(** X5: a focus or activation event in the middle of a chord keeps the
    chord: [eventFilter] returns [False] for every object and event, and
    the pending keys, the prefix argument, its armed reset, the global
    switch, the registries and the event log are as before. *)
Theorem eventFilter_frame (obj : QObject) (t : QEventType) (w : World) :
  exists w',
    LocalKeymapSetter.eventFilter obj t w = (Returns false, w')
    /\ _keypresses (KEY_EATER w') = _keypresses (KEY_EATER w)
    /\ _prefix_arg (KEY_EATER w') = _prefix_arg (KEY_EATER w)
    /\ _reset_prefix_arg (KEY_EATER w') = _reset_prefix_arg (KEY_EATER w)
    /\ _use_global_keymap (KEY_EATER w') = _use_global_keymap (KEY_EATER w)
    /\ current_obj (KEY_EATER w') = current_obj (KEY_EATER w)
    /\ _commands (KEY_EATER w') = _commands (KEY_EATER w)
    /\ LOCAL_KEYMAP_SETTER w' = LOCAL_KEYMAP_SETTER w
    /\ global_key_map w' = global_key_map w
    /\ events w' = events w.
Proof.
  rewrite eventFilter_eq. eexists. split; [reflexivity |].
  destruct (keymap_switch (LOCAL_KEYMAP_SETTER w) obj t); cbn; done.
Qed.

(** ** One key press, whichever branch takes it *)

Lemma with_key_eater_received (k' : KeyEater) (obj : ObjId) (w : World) :
  with_key_eater k' (received obj w) = with_key_eater k' w.
Proof. reflexivity. Qed.

Lemma universal_press_eq (obj : ObjId) (w : World) :
  let u := universal_key (KEY_EATER w) in
  KeyEater.event_filter obj (mkQEvent (Some u)) w
  = (Returns (RetBool true),
     let k' := universal_result u (deferred_reset (set_current_obj (Some obj) (KEY_EATER w))) in
     add_events [minibuffer_show_info (_keypresses k')] (with_key_eater k' w)).
Proof.
  intros u. rewrite event_filter_key.
  rewrite handle_keypress_universal
    by (rewrite takes_universal_received; apply bool_decide_eq_true_2; reflexivity).
  reflexivity.
Qed.

Lemma digit_press_eq (obj : ObjId) (kp : KeyPress) (w : World) :
  digit_table_as_built (KEY_EATER w) ->
  takes_digit_path (KEY_EATER w) kp = true ->
  KeyEater.event_filter obj (mkQEvent (Some kp)) w
  = (Returns (RetBool true),
     let k1 := deferred_reset (set_current_obj (Some obj) (KEY_EATER w)) in
     let k' := set__keypresses (_keypresses k1 ++ [kp])
                 (set__prefix_arg (PInt (folded_zero (_prefix_arg k1))) k1) in
     add_events [minibuffer_show_info (_keypresses k')] (with_key_eater k' w)).
Proof.
  intros Hb Hd. rewrite event_filter_key.
  assert (Hb' : digit_table_as_built (KEY_EATER (received obj w))) by exact Hb.
  rewrite <- (takes_digit_received obj) in Hd.
  pose proof Hd as Hd'. unfold takes_digit_path in Hd'.
  apply andb_prop in Hd' as [Hd' _]. apply andb_prop in Hd' as [_ Hin].
  apply bool_decide_eq_true in Hin as [f Hf].
  pose proof (as_built_lambda _ _ _ Hb' Hf) as ->.
  rewrite (handle_keypress_digit kp (received obj w) "i" "0" _ Hd Hf (as_built_i _ Hb')
             (py_int_folded_zero _)).
  reflexivity.
Qed.

(** The three branches exhaust the key presses. *)
Lemma key_press_cases (obj : ObjId) (kp : KeyPress) (w : World) :
  digit_table_as_built (KEY_EATER w) ->
  let k1 := deferred_reset (set_current_obj (Some obj) (KEY_EATER w)) in
  (kp = universal_key (KEY_EATER w)
   /\ KeyEater.event_filter obj (mkQEvent (Some kp)) w
      = (Returns (RetBool true),
         add_events [minibuffer_show_info (_keypresses (universal_result kp k1))]
           (with_key_eater (universal_result kp k1) w)))
  \/ (takes_digit_path (KEY_EATER w) kp = true
      /\ KeyEater.event_filter obj (mkQEvent (Some kp)) w
         = (Returns (RetBool true),
            add_events [minibuffer_show_info (_keypresses k1 ++ [kp])]
              (with_key_eater
                 (set__keypresses (_keypresses k1 ++ [kp])
                    (set__prefix_arg (PInt (folded_zero (_prefix_arg k1))) k1)) w)))
  \/ (takes_normal_path (KEY_EATER w) kp = true
      /\ KeyEater.event_filter obj (mkQEvent (Some kp)) w
         = (Returns (filter_result (command_found w kp || partial_found w kp)),
            with_key_eater
              (finish_lookup (partial_found w kp) (command_found w kp)
                 (set__keypresses (chord_with w kp) k1))
              (add_events
                 (minibuffer_show_info (chord_with w kp)
                  :: concat (step_events (set__keypresses (chord_with w kp) k1)
                               (chord_with w kp) <$> active_keymap_list w)) w))).
Proof.
  intros Hb k1.
  destruct (takes_universal_path (KEY_EATER w) kp) eqn:Hu.
  - left. pose proof Hu as Heq. apply bool_decide_eq_true in Heq.
    split; [exact Heq |]. subst kp. apply universal_press_eq.
  - destruct (takes_digit_path (KEY_EATER w) kp) eqn:Hd.
    + right. left. split; [reflexivity |]. by apply digit_press_eq.
    + right. right.
      assert (Hn : takes_normal_path (KEY_EATER w) kp = true)
        by (unfold takes_normal_path; by rewrite Hu, Hd).
      split; [exact Hn |]. by apply normal_press.
Qed.

Lemma universal_result_frame (kp : KeyPress) (k : KeyEater) :
  _commands (universal_result kp k) = _commands k
  /\ _local_key_map (universal_result kp k) = _local_key_map k
  /\ current_obj (universal_result kp k) = current_obj k
  /\ _use_global_keymap (universal_result kp k) = _use_global_keymap k
  /\ universal_key (universal_result kp k) = universal_key k
  /\ _reset_prefix_arg (universal_result kp k) = _reset_prefix_arg k
  /\ (_keypresses (universal_result kp k) = [kp]
      \/ _keypresses (universal_result kp k) = _keypresses k ++ [kp]).
Proof.
  unfold universal_result. destruct (_prefix_arg k); cbn; repeat split; auto.
Qed.

Lemma finish_lookup_frame (inc called : bool) (k : KeyEater) :
  _commands (finish_lookup inc called k) = _commands k
  /\ _local_key_map (finish_lookup inc called k) = _local_key_map k
  /\ current_obj (finish_lookup inc called k) = current_obj k
  /\ _use_global_keymap (finish_lookup inc called k) = _use_global_keymap k
  /\ universal_key (finish_lookup inc called k) = universal_key k
  /\ _prefix_arg (finish_lookup inc called k) = _prefix_arg k
  /\ _reset_prefix_arg (finish_lookup inc called k) = called || _reset_prefix_arg k
  /\ _keypresses (finish_lookup inc called k)
     = if called || negb inc then [] else _keypresses k.
Proof. unfold finish_lookup. destruct called, inc; cbn; repeat split; auto. Qed.

(** What no key press touches, and what every key press records. *)
Lemma key_press_frame (obj : ObjId) (kp : KeyPress) (w : World) :
  digit_table_as_built (KEY_EATER w) ->
  exists r w',
    KeyEater.event_filter obj (mkQEvent (Some kp)) w = (Returns r, w')
    /\ current_obj (KEY_EATER w') = Some obj
    /\ _local_key_map (KEY_EATER w') = _local_key_map (KEY_EATER w)
    /\ _use_global_keymap (KEY_EATER w') = _use_global_keymap (KEY_EATER w)
    /\ _commands (KEY_EATER w') = _commands (KEY_EATER w)
    /\ universal_key (KEY_EATER w') = universal_key (KEY_EATER w)
    /\ LOCAL_KEYMAP_SETTER w' = LOCAL_KEYMAP_SETTER w
    /\ global_key_map w' = global_key_map w.
Proof.
  intros Hb.
  destruct (deferred_reset_frame (set_current_obj (Some obj) (KEY_EATER w)))
    as (Hc & Hcm & Hl & Ho & Hg & Hu & Hr & _).
  destruct (key_press_cases obj kp w Hb) as [[_ Hf] | [[_ Hf] | [_ Hf]]];
    rewrite Hf; eexists _, _; (split; [reflexivity |]);
    cbn [KEY_EATER LOCAL_KEYMAP_SETTER global_key_map add_events with_key_eater].
  - destruct (universal_result_frame kp (deferred_reset (set_current_obj (Some obj) (KEY_EATER w))))
      as (Hcm' & Hl' & Ho' & Hg' & Hu' & _).
    rewrite Hcm', Hl', Ho', Hg', Hu', Hcm, Hl, Ho, Hg, Hu. done.
  - cbn. rewrite Hcm, Hl, Ho, Hg, Hu. done.
  - destruct (finish_lookup_frame (partial_found w kp) (command_found w kp)
                (set__keypresses (chord_with w kp)
                   (deferred_reset (set_current_obj (Some obj) (KEY_EATER w)))))
      as (Hcm' & Hl' & Ho' & Hg' & Hu' & _).
    rewrite Hcm', Hl', Ho', Hg', Hu'. cbn. rewrite Hcm, Hl, Ho, Hg, Hu. done.
Qed.

(** X6: every key press, whichever branch handles it and whether or not
    it ends up consumed, records its receiver as the redirection target;
    the local keymap, the global switch, the registry of commands and the
    switcher are not touched.  An event that is not a key press changes
    nothing at all, the redirection target included. *)
Theorem receiver_recorded (obj : ObjId) (kp : KeyPress) (w : World) :
  digit_table_as_built (KEY_EATER w) ->
  (exists r w',
     KeyEater.event_filter obj (mkQEvent (Some kp)) w = (Returns r, w')
     /\ current_obj (KEY_EATER w') = Some obj
     /\ _local_key_map (KEY_EATER w') = _local_key_map (KEY_EATER w)
     /\ _use_global_keymap (KEY_EATER w') = _use_global_keymap (KEY_EATER w)
     /\ _commands (KEY_EATER w') = _commands (KEY_EATER w)
     /\ universal_key (KEY_EATER w') = universal_key (KEY_EATER w)
     /\ LOCAL_KEYMAP_SETTER w' = LOCAL_KEYMAP_SETTER w
     /\ global_key_map w' = global_key_map w)
  /\ KeyEater.event_filter obj (mkQEvent None) w = (Returns (RetBool false), w).
Proof.
  intros Hb. split; [| reflexivity]. by apply key_press_frame.
Qed.

Lemma receiver_recorded_witness :
  digit_table_as_built (KEY_EATER pending_g_world)
  /\ (exists r w',
        KeyEater.event_filter 9%positive (mkQEvent (Some key_x)) pending_g_world = (Returns r, w')
        /\ current_obj (KEY_EATER w') = Some 9%positive
        /\ _local_key_map (KEY_EATER w') = _local_key_map (KEY_EATER pending_g_world)
        /\ _use_global_keymap (KEY_EATER w') = _use_global_keymap (KEY_EATER pending_g_world)
        /\ _commands (KEY_EATER w') = _commands (KEY_EATER pending_g_world)
        /\ universal_key (KEY_EATER w') = universal_key (KEY_EATER pending_g_world)
        /\ LOCAL_KEYMAP_SETTER w' = LOCAL_KEYMAP_SETTER pending_g_world
        /\ global_key_map w' = global_key_map pending_g_world)
  /\ KeyEater.event_filter 9%positive (mkQEvent None) pending_g_world
     = (Returns (RetBool false), pending_g_world).
Proof.
  assert (Hb : digit_table_as_built (KEY_EATER pending_g_world)) by (split; reflexivity).
  split; [exact Hb |].
  exact (receiver_recorded 9%positive key_x pending_g_world Hb).
Defined.

(** ** [send_key_event] *)

(** X7: [send_key_event] forwards to whoever received the last key press:
    after a key press delivered to [obj] it posts a press then a release of
    the given key to [obj], provided [obj] is still alive, and posts
    nothing if it died; it changes no state.  Before any key press was
    received there is no target and nothing is posted. *)
Theorem redirect_to_last_receiver (alive : ObjId -> bool) (obj : ObjId)
    (kp sent : KeyPress) (w : World) :
  digit_table_as_built (KEY_EATER w) ->
  (exists r w',
     KeyEater.event_filter obj (mkQEvent (Some kp)) w = (Returns r, w')
     /\ send_key_event alive sent w'
        = (Returns (if alive obj
                    then [(obj, sent, QEvent_KeyPress); (obj, sent, QEvent_KeyRelease)]
                    else []), w'))
  /\ (current_obj (KEY_EATER w) = None -> send_key_event alive sent w = (Returns [], w)).
Proof.
  intros Hb. split.
  - destruct (key_press_frame obj kp w Hb) as (r & w' & Hf & Ho & _).
    exists r, w'. split; [exact Hf |].
    unfold send_key_event. py_unfold. rewrite Ho. by destruct (alive obj).
  - intros Hnone. unfold send_key_event. py_unfold. by rewrite Hnone.
Qed.

Lemma redirect_to_last_receiver_witness :
  digit_table_as_built (KEY_EATER browsing_world)
  /\ current_obj (KEY_EATER browsing_world) = None
  /\ (exists r w',
        KeyEater.event_filter 9%positive (mkQEvent (Some key_g)) browsing_world = (Returns r, w')
        /\ send_key_event (fun o => bool_decide (o = 9%positive)) key_x w'
           = (Returns [(9%positive, key_x, QEvent_KeyPress);
                       (9%positive, key_x, QEvent_KeyRelease)], w'))
  /\ send_key_event (fun o => bool_decide (o = 9%positive)) key_x browsing_world
     = (Returns [], browsing_world).
Proof.
  assert (Hb : digit_table_as_built (KEY_EATER browsing_world)) by (split; reflexivity).
  split; [exact Hb |]. split; [reflexivity |].
  destruct (redirect_to_last_receiver (fun o => bool_decide (o = 9%positive)) 9%positive
              key_g key_x browsing_world Hb) as [Hsend Hnone].
  split; [exact Hsend | exact (Hnone eq_refl)].
Defined.

(** ** Runs of key presses *)

Lemma key_press_result (obj : ObjId) (kp : KeyPress) (w : World) :
  digit_table_as_built (KEY_EATER w) ->
  exists r w',
    KeyEater.event_filter obj (mkQEvent (Some kp)) w = (Returns r, w')
    /\ (r = RetBool true \/ r = RetNone)
    /\ digit_table_as_built (KEY_EATER w').
Proof.
  intros Hb.
  destruct (event_filter_keeps_digit_table obj (mkQEvent (Some kp)) w Hb)
    as (r & w' & Hf & Hb').
  exists r, w'. split; [exact Hf |]. split; [| exact Hb'].
  destruct (key_press_cases obj kp w Hb) as [[_ Hf'] | [[_ Hf'] | [_ Hf']]];
    rewrite Hf' in Hf; injection Hf as <- _; auto.
  unfold filter_result. destruct (_ || _); auto.
Qed.

Lemma feed_all_returns (obj : ObjId) (keys : list KeyPress) (w : World) :
  digit_table_as_built (KEY_EATER w) ->
  exists rs w',
    feed_all obj keys w = (Returns rs, w')
    /\ length rs = length keys
    /\ Forall (fun r => r = RetBool true \/ r = RetNone) rs
    /\ digit_table_as_built (KEY_EATER w').
Proof.
  revert w. induction keys as [| kp keys IH]; intros w Hb.
  - exists [], w. done.
  - destruct (key_press_result obj kp w Hb) as (r & w1 & Hf & Hr & Hb1).
    destruct (IH w1 Hb1) as (rs & w' & Hrun & Hlen & Hrs & Hb').
    exists (r :: rs), w'. cbn [feed_all].
    unfold bind at 1, mbind, Py_bind. rewrite Hf.
    unfold bind at 1, mbind, Py_bind. rewrite Hrun.
    split; [reflexivity |]. split; [cbn; by rewrite Hlen |]. split; [| exact Hb'].
    by constructor.
Qed.

(** X8: delivering key presses never raises.  From the freshly loaded
    module, whatever the registry, the keymaps and the commands do (unknown
    names, commands that raise), any sequence of key presses is handled to
    the end, with one answer per key, each either [True] or [None]. *)
Theorem feed_never_raises (COMMANDS : gmap string Callable) (global : Keymap)
    (local : option Keymap) (obj : ObjId) (keys : list KeyPress) :
  exists rs w',
    feed_all obj keys (set_local_keymap local (module_loaded COMMANDS global)).2
    = (Returns rs, w')
    /\ length rs = length keys
    /\ Forall (fun r => r = RetBool true \/ r = RetNone) rs.
Proof.
  destruct (feed_all_returns obj keys
              (set_local_keymap local (module_loaded COMMANDS global)).2)
    as (rs & w' & Hrun & Hlen & Hrs & _).
  - split; reflexivity.
  - exists rs, w'. done.
Qed.

(** ** Commands that raise *)

(** X9: a command that raises is caught by the dispatch loop, whether the
    keymap gives it as a callable or by a name the registry resolves: the
    command did run, with the prefix argument readable, its exception is
    logged, the remaining keymaps are still queried, and the key press ends
    as after any command, with the chord empty, the reset armed and [True]
    returned. *)
Theorem raising_command_logged (obj : ObjId) (kp : KeyPress) (w : World)
    (c : Command) (f : Callable) (e : PyExn) (km : Keymap) :
  takes_normal_path (KEY_EATER w) kp = true ->
  km ∈ active_keymap_list w ->
  lookup km (_keypresses (KEY_EATER w) ++ [kp]) = Some (mkLookupResult true c) ->
  resolve (KEY_EATER w) c = Some f ->
  callable_raises f = Some e ->
  exists w' new,
    KeyEater.event_filter obj (mkQEvent (Some kp)) w = (Returns (RetBool true), w')
    /\ events w' = events w ++ new
    /\ command_call f (_prefix_arg (deferred_reset (KEY_EATER w))) ∈ new
    /\ logging_exception e ∈ new
    /\ lookups_of new
       = (fun km => (keymap_name km, _keypresses (KEY_EATER w) ++ [kp])) <$> active_keymap_list w
    /\ KEY_EATER w'
       = set__reset_prefix_arg true
           (set__keypresses [] (deferred_reset (set_current_obj (Some obj) (KEY_EATER w)))).
Proof.
  intros Hn Hkm Hlook Hres Hraise.
  assert (Hc : command_found w kp = true).
  { unfold command_found. apply existsb_exists. exists km. split.
    - by apply list_elem_of_In.
    - unfold reports_complete, chord_with. by rewrite Hlook. }
  destruct (command_found_state obj kp w Hn Hc) as (w' & new & Hf & He & Hk & Hnew).
  exists w', new. split; [exact Hf |]. split; [exact He |].
  set (k1 := set__keypresses (chord_with w kp)
               (deferred_reset (set_current_obj (Some obj) (KEY_EATER w)))) in *.
  assert (Hcall : call_events k1 c = run_events k1 f).
  { unfold call_events. destruct c as [name | f0]; cbn in Hres.
    - assert (Hreg : _commands k1 = _commands (KEY_EATER w)).
      { unfold k1, deferred_reset. cbn. by destruct (_reset_prefix_arg (KEY_EATER w)). }
      by rewrite Hreg, Hres.
    - by injection Hres as ->. }
  assert (Hstep : forall ev, ev ∈ run_events k1 f -> ev ∈ new).
  { intros ev Hev. rewrite Hnew. apply list_elem_of_In. right. apply in_concat.
    eexists. split.
    - apply in_map_iff. exists km. split; [reflexivity |]. by apply list_elem_of_In.
    - unfold step_events, chord_with. rewrite Hlook. cbn [complete command].
      fold (chord_with w kp). fold k1. rewrite Hcall. right. by apply list_elem_of_In. }
  assert (Hp : _prefix_arg k1 = _prefix_arg (deferred_reset (KEY_EATER w))).
  { unfold k1, deferred_reset. cbn. by destruct (_reset_prefix_arg (KEY_EATER w)). }
  split; [| split; [| split; [| exact Hk]]].
  - apply Hstep. unfold run_events. rewrite Hp. apply elem_of_cons. by left.
  - apply Hstep. unfold run_events. rewrite Hraise.
    apply elem_of_cons. right. apply elem_of_cons. by left.
  - rewrite Hnew. cbn [lookups_of omap]. change (omap _ ?l) with (lookups_of l).
    apply lookups_of_steps.
Qed.

Lemma raising_command_logged_witness :
  takes_normal_path (KEY_EATER raising_world) key_x = true
  /\ (raising_keymap ∈ active_keymap_list raising_world)
  /\ lookup raising_keymap (_keypresses (KEY_EATER raising_world) ++ [key_x])
     = Some (mkLookupResult true (CommandStr "broken"))
  /\ resolve (KEY_EATER raising_world) (CommandStr "broken") = Some failing_command
  /\ callable_raises failing_command = Some (Exception "boom")
  /\ (exists w' new,
        KeyEater.event_filter 1%positive (mkQEvent (Some key_x)) raising_world
        = (Returns (RetBool true), w')
        /\ events w' = events raising_world ++ new
        /\ command_call failing_command (_prefix_arg (deferred_reset (KEY_EATER raising_world)))
           ∈ new
        /\ logging_exception (Exception "boom") ∈ new
        /\ lookups_of new
           = (fun km => (keymap_name km, _keypresses (KEY_EATER raising_world) ++ [key_x]))
             <$> active_keymap_list raising_world
        /\ KEY_EATER w'
           = set__reset_prefix_arg true
               (set__keypresses []
                  (deferred_reset (set_current_obj (Some 1%positive) (KEY_EATER raising_world)))))
  /\ (exists w' new,
        KeyEater.event_filter 1%positive (mkQEvent (Some key_g)) pending_g_world
        = (Returns (RetBool true), w')
        /\ events w' = events pending_g_world ++ new
        /\ command_call failing_command (_prefix_arg (deferred_reset (KEY_EATER pending_g_world)))
           ∈ new
        /\ logging_exception (Exception "boom") ∈ new
        /\ lookups_of new
           = (fun km => (keymap_name km, _keypresses (KEY_EATER pending_g_world) ++ [key_g]))
             <$> active_keymap_list pending_g_world
        /\ KEY_EATER w'
           = set__reset_prefix_arg true
               (set__keypresses []
                  (deferred_reset (set_current_obj (Some 1%positive) (KEY_EATER pending_g_world))))).
Proof.
  assert (Hin : raising_keymap ∈ active_keymap_list raising_world).
  { apply elem_of_cons. by left. }
  assert (Hin' : sample_global ∈ active_keymap_list pending_g_world).
  { apply elem_of_cons. right. apply elem_of_cons. by left. }
  split; [reflexivity |]. split; [exact Hin |]. split; [reflexivity |].
  split; [reflexivity |]. split; [reflexivity |]. split.
  - apply (raising_command_logged 1%positive key_x raising_world (CommandStr "broken")
             failing_command (Exception "boom") raising_keymap);
      [reflexivity | exact Hin | reflexivity | reflexivity | reflexivity].
  - apply (raising_command_logged 1%positive key_g pending_g_world
             (CommandCallable failing_command) failing_command (Exception "boom")
             sample_global);
      [reflexivity | exact Hin' | reflexivity | reflexivity | reflexivity].
Defined.

(** ** The prefix argument across lookups *)

(** X10: keymap lookup leaves the prefix argument alone.  A key press on
    the normal path changes it only through the reset armed by an earlier
    command, and arms the next reset exactly when it called a command: a
    partial match or a full miss keeps an open prefix argument open. *)
Theorem lookup_keeps_prefix_arg (obj : ObjId) (kp : KeyPress) (w : World) :
  takes_normal_path (KEY_EATER w) kp = true ->
  exists r w',
    KeyEater.event_filter obj (mkQEvent (Some kp)) w = (Returns r, w')
    /\ _prefix_arg (KEY_EATER w') = _prefix_arg (deferred_reset (KEY_EATER w))
    /\ _reset_prefix_arg (KEY_EATER w') = command_found w kp.
Proof.
  intros Hn. rewrite (normal_press obj kp w Hn).
  eexists _, _. split; [reflexivity |].
  cbn [KEY_EATER with_key_eater].
  destruct (finish_lookup_frame (partial_found w kp) (command_found w kp)
              (set__keypresses (chord_with w kp)
                 (deferred_reset (set_current_obj (Some obj) (KEY_EATER w)))))
    as (_ & _ & _ & _ & _ & Hp & Hr & _).
  rewrite Hp, Hr. cbn.
  destruct (deferred_reset_frame (set_current_obj (Some obj) (KEY_EATER w)))
    as (_ & _ & _ & _ & _ & _ & Hr' & _).
  rewrite Hr', orb_false_r. split; [| reflexivity].
  unfold deferred_reset. cbn. by destruct (_reset_prefix_arg (KEY_EATER w)).
Qed.

Lemma lookup_keeps_prefix_arg_witness :
  takes_normal_path (KEY_EATER after_universal) key_x = true
  /\ exists r w',
    KeyEater.event_filter 1%positive (mkQEvent (Some key_x)) after_universal = (Returns r, w')
    /\ _prefix_arg (KEY_EATER w') = _prefix_arg (deferred_reset (KEY_EATER after_universal))
    /\ _reset_prefix_arg (KEY_EATER w') = command_found after_universal key_x.
Proof.
  split; [reflexivity |].
  apply (lookup_keeps_prefix_arg 1%positive key_x after_universal). reflexivity.
Defined.

(** A full miss leaves the multiplier open: the next universal press
    multiplies it. *)
Example miss_keeps_multiplier :
  _prefix_arg (KEY_EATER (feed_all 1%positive [key_x; c_u] after_universal).2) = PTuple 16.
Proof. reflexivity. Qed.

(** X11: once a command has run, the key pressed next is never taken as a
    digit of the old prefix argument: unless it is the universal key it
    goes through keymap lookup, every active keymap is queried with it, and
    the prefix argument is absent afterwards. *)
Theorem key_after_command_is_looked_up (obj : ObjId) (kp : KeyPress) (w : World) :
  _reset_prefix_arg (KEY_EATER w) = true ->
  kp <> universal_key (KEY_EATER w) ->
  takes_normal_path (KEY_EATER w) kp = true
  /\ exists r w' new,
    KeyEater.event_filter obj (mkQEvent (Some kp)) w = (Returns r, w')
    /\ events w' = events w ++ new
    /\ lookups_of new
       = (fun km => (keymap_name km, _keypresses (KEY_EATER w) ++ [kp])) <$> active_keymap_list w
    /\ _prefix_arg (KEY_EATER w') = PNone.
Proof.
  intros Hr Hu.
  assert (Hn : takes_normal_path (KEY_EATER w) kp = true).
  { unfold takes_normal_path, takes_digit_path, takes_universal_path, deferred_reset.
    rewrite Hr. rewrite bool_decide_eq_false_2 by done. reflexivity. }
  split; [exact Hn |].
  rewrite (normal_press obj kp w Hn).
  eexists _, _, _. split; [reflexivity |].
  cbn [events add_events with_key_eater KEY_EATER].
  split; [reflexivity |]. split.
  - cbn [lookups_of omap]. change (omap _ ?l) with (lookups_of l).
    apply lookups_of_steps.
  - destruct (finish_lookup_frame (partial_found w kp) (command_found w kp)
                (set__keypresses (chord_with w kp)
                   (deferred_reset (set_current_obj (Some obj) (KEY_EATER w)))))
      as (_ & _ & _ & _ & _ & Hp & _).
    rewrite Hp. unfold deferred_reset. cbn. by rewrite Hr.
Qed.

Lemma key_after_command_is_looked_up_witness :
  _reset_prefix_arg (KEY_EATER after_command_world) = true
  /\ plain_key "1" <> universal_key (KEY_EATER after_command_world)
  /\ takes_normal_path (KEY_EATER after_command_world) (plain_key "1") = true
  /\ exists r w' new,
    KeyEater.event_filter 1%positive (mkQEvent (Some (plain_key "1"))) after_command_world
    = (Returns r, w')
    /\ events w' = events after_command_world ++ new
    /\ lookups_of new
       = (fun km => (keymap_name km,
                     _keypresses (KEY_EATER after_command_world) ++ [plain_key "1"]))
         <$> active_keymap_list after_command_world
    /\ _prefix_arg (KEY_EATER w') = PNone.
Proof.
  assert (Hne : plain_key "1" <> universal_key (KEY_EATER after_command_world))
    by discriminate.
  split; [reflexivity |]. split; [exact Hne |].
  exact (key_after_command_is_looked_up 1%positive (plain_key "1") after_command_world
           eq_refl Hne).
Defined.

(** ** The echo and the chord *)

Lemma echoes_of_app (e1 e2 : list Event) :
  echoes_of (e1 ++ e2) = echoes_of e1 ++ echoes_of e2.
Proof. apply omap_app. Qed.

Lemma echoes_of_steps (k : KeyEater) (chord : list KeyPress) (kms : list Keymap) :
  echoes_of (concat (step_events k chord <$> kms)) = [].
Proof.
  induction kms as [| km kms IH]; [done |].
  cbn [fmap list_fmap concat]. rewrite echoes_of_app, IH, app_nil_r.
  unfold step_events, call_events, run_events.
  destruct (lookup km chord) as [r |]; [destruct (complete r) |]; try reflexivity.
  destruct (command r) as [name | f]; [destruct (_commands k !! name) as [f |] |];
    try destruct (callable_raises f); reflexivity.
Qed.

(** X12: every key press is echoed exactly once, before any keymap is
    queried, whether or not the key ends up consumed.  What is echoed is
    the chord with the key in last place, in front of it either the keys
    that were pending or nothing; what stays pending afterwards is that
    echoed chord or nothing. *)
Theorem key_press_echoed_once (obj : ObjId) (kp : KeyPress) (w : World) :
  digit_table_as_built (KEY_EATER w) ->
  exists r w' front rest,
    KeyEater.event_filter obj (mkQEvent (Some kp)) w = (Returns r, w')
    /\ events w' = events w ++ minibuffer_show_info (front ++ [kp]) :: rest
    /\ echoes_of rest = []
    /\ (front = [] \/ front = _keypresses (KEY_EATER w))
    /\ (_keypresses (KEY_EATER w') = [] \/ _keypresses (KEY_EATER w') = front ++ [kp]).
Proof.
  intros Hb.
  destruct (deferred_reset_frame (set_current_obj (Some obj) (KEY_EATER w)))
    as (Hc & _).
  cbn [set_current_obj _keypresses] in Hc.
  destruct (key_press_cases obj kp w Hb) as [[_ Hf] | [[_ Hf] | [_ Hf]]]; rewrite Hf.
  - destruct (universal_result_frame kp (deferred_reset (set_current_obj (Some obj) (KEY_EATER w))))
      as (_ & _ & _ & _ & _ & _ & [Hk | Hk]).
    + eexists _, _, [], []. split; [reflexivity |].
      cbn [events add_events with_key_eater KEY_EATER]. rewrite Hk. auto.
    + eexists _, _, (_keypresses (KEY_EATER w)), []. split; [reflexivity |].
      cbn [events add_events with_key_eater KEY_EATER]. rewrite Hk, Hc. auto.
  - eexists _, _, (_keypresses (KEY_EATER w)), []. split; [reflexivity |].
    cbn [events add_events with_key_eater KEY_EATER _keypresses set__keypresses].
    rewrite Hc. auto.
  - eexists _, _, (_keypresses (KEY_EATER w)), _. split; [reflexivity |].
    cbn [events add_events with_key_eater KEY_EATER].
    split; [reflexivity |]. split; [apply echoes_of_steps |]. split; [auto |].
    destruct (finish_lookup_frame (partial_found w kp) (command_found w kp)
                (set__keypresses (chord_with w kp)
                   (deferred_reset (set_current_obj (Some obj) (KEY_EATER w)))))
      as (_ & _ & _ & _ & _ & _ & _ & Hk).
    rewrite Hk.
    destruct (command_found w kp || negb (partial_found w kp)); [left | right]; reflexivity.
Qed.

Lemma key_press_echoed_once_witness :
  digit_table_as_built (KEY_EATER pending_g_world)
  /\ exists r w' front rest,
    KeyEater.event_filter 1%positive (mkQEvent (Some key_g)) pending_g_world = (Returns r, w')
    /\ events w' = events pending_g_world ++ minibuffer_show_info (front ++ [key_g]) :: rest
    /\ echoes_of rest = []
    /\ (front = [] \/ front = _keypresses (KEY_EATER pending_g_world))
    /\ (_keypresses (KEY_EATER w') = [] \/ _keypresses (KEY_EATER w') = front ++ [key_g]).
Proof.
  assert (Hb : digit_table_as_built (KEY_EATER pending_g_world)) by (split; reflexivity).
  split; [exact Hb |].
  exact (key_press_echoed_once 1%positive key_g pending_g_world Hb).
Defined.

(** ** The values the prefix argument takes *)

Lemma key_press_prefix_shape (obj : ObjId) (kp : KeyPress) (w : World) :
  digit_table_as_built (KEY_EATER w) ->
  prefix_arg_shape (_prefix_arg (KEY_EATER w)) ->
  exists r w',
    KeyEater.event_filter obj (mkQEvent (Some kp)) w = (Returns r, w')
    /\ digit_table_as_built (KEY_EATER w')
    /\ prefix_arg_shape (_prefix_arg (KEY_EATER w')).
Proof.
  intros Hb Hs.
  destruct (event_filter_keeps_digit_table obj (mkQEvent (Some kp)) w Hb)
    as (r & w' & Hf & Hb').
  exists r, w'. split; [exact Hf |]. split; [exact Hb' |].
  assert (Hs1 : prefix_arg_shape
                  (_prefix_arg (deferred_reset (set_current_obj (Some obj) (KEY_EATER w))))).
  { unfold deferred_reset. cbn. by destruct (_reset_prefix_arg (KEY_EATER w)). }
  destruct (key_press_cases obj kp w Hb) as [[_ Hf'] | [[_ Hf'] | [_ Hf']]];
    rewrite Hf' in Hf; injection Hf as _ <-;
    cbn [KEY_EATER add_events with_key_eater].
  - unfold universal_result.
    destruct (_prefix_arg (deferred_reset (set_current_obj (Some obj) (KEY_EATER w))))
      as [| n | n]; cbn.
    + exists 1%nat. split; [lia | reflexivity].
    + exists 1%nat. split; [lia | reflexivity].
    + destruct Hs1 as (m & Hm & ->). exists (S m). split; [lia |].
      rewrite Nat2Z.inj_succ, Z.pow_succ_r by lia. lia.
  - cbn. unfold folded_zero.
    destruct (_prefix_arg (deferred_reset (set_current_obj (Some obj) (KEY_EATER w))))
      as [| n | n]; cbn in *; lia.
  - destruct (finish_lookup_frame (partial_found w kp) (command_found w kp)
                (set__keypresses (chord_with w kp)
                   (deferred_reset (set_current_obj (Some obj) (KEY_EATER w)))))
      as (_ & _ & _ & _ & _ & Hp & _).
    rewrite Hp. exact Hs1.
Qed.

Lemma feed_all_prefix_shape (obj : ObjId) (keys : list KeyPress) (w : World) :
  digit_table_as_built (KEY_EATER w) ->
  prefix_arg_shape (_prefix_arg (KEY_EATER w)) ->
  exists rs w',
    feed_all obj keys w = (Returns rs, w')
    /\ prefix_arg_shape (_prefix_arg (KEY_EATER w')).
Proof.
  revert w. induction keys as [| kp keys IH]; intros w Hb Hs.
  - exists [], w. done.
  - destruct (key_press_prefix_shape obj kp w Hb Hs) as (r & w1 & Hf & Hb1 & Hs1).
    destruct (IH w1 Hb1 Hs1) as (rs & w' & Hrun & Hs').
    exists (r :: rs), w'. cbn [feed_all].
    unfold bind at 1, mbind, Py_bind. rewrite Hf.
    unfold bind at 1, mbind, Py_bind. rewrite Hrun. done.
Qed.

(** X13: whatever keys are pressed after the module is loaded, the prefix
    argument is absent, a non-negative integer, or a one-element tuple
    holding a power of 4 with exponent at least 1. *)
Theorem prefix_arg_always_shaped (COMMANDS : gmap string Callable) (global : Keymap)
    (local : option Keymap) (obj : ObjId) (keys : list KeyPress) :
  exists rs w',
    feed_all obj keys (set_local_keymap local (module_loaded COMMANDS global)).2
    = (Returns rs, w')
    /\ prefix_arg_shape (_prefix_arg (KEY_EATER w')).
Proof.
  apply feed_all_prefix_shape; [split; reflexivity | exact I].
Qed.

(** ** Switching the global keymap off *)

(** X14: [set_global_keymap_enabled(False)] changes the switch and nothing
    else, and from then on a key press on the normal path queries the local
    keymap alone, the global keymap never.  With no local keymap either, no
    keymap is queried: the key is refused with a false value, no command
    runs and the chord is empty. *)
Theorem global_keymap_switched_off (obj : ObjId) (kp : KeyPress) (w : World) :
  takes_normal_path (KEY_EATER w) kp = true ->
  exists w1 r w' new,
    set_global_keymap_enabled false w = (Returns (), w1)
    /\ KEY_EATER w1 = set__use_global_keymap false (KEY_EATER w)
    /\ LOCAL_KEYMAP_SETTER w1 = LOCAL_KEYMAP_SETTER w
    /\ events w1 = events w
    /\ KeyEater.event_filter obj (mkQEvent (Some kp)) w1 = (Returns r, w')
    /\ events w' = events w ++ new
    /\ lookups_of new
       = match _local_key_map (KEY_EATER w) with
         | Some l => [(keymap_name l, _keypresses (KEY_EATER w) ++ [kp])]
         | None => []
         end
    /\ (_local_key_map (KEY_EATER w) = None ->
        r = RetNone /\ _keypresses (KEY_EATER w') = [] /\ calls_of new = []).
Proof.
  intros Hn.
  eexists. do 3 eexists. split; [reflexivity |].
  match goal with |- context [KeyEater.event_filter _ _ ?w0] => set (w1 := w0) end.
  split; [reflexivity |]. split; [reflexivity |]. split; [reflexivity |].
  assert (Hn1 : takes_normal_path (KEY_EATER w1) kp = true).
  { unfold takes_normal_path, takes_digit_path, takes_universal_path, deferred_reset in *.
    cbn in *. destruct (_reset_prefix_arg (KEY_EATER w)); exact Hn. }
  rewrite (normal_press obj kp w1 Hn1).
  split; [reflexivity |].
  cbn [events add_events with_key_eater KEY_EATER].
  split; [reflexivity |].
  assert (Hlist : active_keymap_list w1
                  = match _local_key_map (KEY_EATER w) with Some l => [l] | None => [] end).
  { unfold active_keymap_list. cbn. by rewrite app_nil_r. }
  split.
  - change (lookups_of (minibuffer_show_info ?c :: ?evs)) with (lookups_of evs).
    rewrite lookups_of_steps. fold w1. rewrite Hlist.
    by destruct (_local_key_map (KEY_EATER w)).
  - intros Hnone. fold w1. unfold command_found, partial_found. rewrite Hlist, Hnone.
    cbn. done.
Qed.

Lemma global_keymap_switched_off_witness :
  takes_normal_path (KEY_EATER unknown_x_world) key_x = true
  /\ _local_key_map (KEY_EATER unknown_x_world) = None
  /\ exists w1 r w' new,
    set_global_keymap_enabled false unknown_x_world = (Returns (), w1)
    /\ KeyEater.event_filter 1%positive (mkQEvent (Some key_x)) w1 = (Returns r, w')
    /\ events w' = events unknown_x_world ++ new
    /\ lookups_of new = []
    /\ r = RetNone /\ _keypresses (KEY_EATER w') = [] /\ calls_of new = [].
Proof.
  split; [reflexivity |]. split; [reflexivity |].
  destruct (global_keymap_switched_off 1%positive key_x unknown_x_world eq_refl)
    as (w1 & r & w' & new & Hs & _ & _ & _ & Hf & He & Hl & Hnone).
  exists w1, r, w', new. split; [exact Hs |]. split; [exact Hf |]. split; [exact He |].
  split; [exact Hl |]. exact (Hnone eq_refl).
Defined.

(** ** Keys that nothing binds *)

(** The dispatcher with no prefix argument left once an armed reset has
    run, and with keymaps that answer "no match" to every chord. *)
Lemma unbound_key_refused (obj : ObjId) (kp : KeyPress) (w : World) :
  _prefix_arg (deferred_reset (KEY_EATER w)) = PNone ->
  (forall km chord, km ∈ active_keymap_list w -> lookup km chord = None) ->
  kp <> universal_key (KEY_EATER w) ->
  exists w' new,
    KeyEater.event_filter obj (mkQEvent (Some kp)) w = (Returns RetNone, w')
    /\ events w' = events w ++ new
    /\ calls_of new = []
    /\ _keypresses (KEY_EATER w') = []
    /\ _prefix_arg (KEY_EATER w') = PNone
    /\ _reset_prefix_arg (KEY_EATER w') = false
    /\ universal_key (KEY_EATER w') = universal_key (KEY_EATER w)
    /\ active_keymap_list w' = active_keymap_list w.
Proof.
  intros Hp Hsilent Hu.
  assert (Hn : takes_normal_path (KEY_EATER w) kp = true).
  { unfold takes_normal_path, takes_digit_path, takes_universal_path.
    rewrite Hp. rewrite bool_decide_eq_false_2 by done. reflexivity. }
  assert (Hnone : forall (P : list KeyPress -> Keymap -> bool),
             (forall km, lookup km (chord_with w kp) = None -> P (chord_with w kp) km = false) ->
             existsb (P (chord_with w kp)) (active_keymap_list w) = false).
  { intros P HP. apply not_true_is_false. intros (km & Hin & Hkm)%existsb_exists.
    rewrite HP in Hkm; [discriminate |]. apply Hsilent. by apply list_elem_of_In. }
  assert (Hc : command_found w kp = false).
  { apply (Hnone reports_complete). intros km Hkm. unfold reports_complete. by rewrite Hkm. }
  assert (Hpa : partial_found w kp = false).
  { apply (Hnone reports_partial). intros km Hkm. unfold reports_partial. by rewrite Hkm. }
  rewrite (normal_press obj kp w Hn). rewrite Hc, Hpa.
  eexists _, _. split; [reflexivity |].
  cbn [events add_events with_key_eater KEY_EATER].
  split; [reflexivity |].
  destruct (deferred_reset_frame (set_current_obj (Some obj) (KEY_EATER w)))
    as (_ & _ & Hl & _ & Hg & Huk & Hr & _).
  split; [| split; [reflexivity | split; [| split; [| split]]]].
  - change (calls_of (minibuffer_show_info ?c :: ?evs)) with (calls_of evs).
    apply calls_of_steps_none. exact Hc.
  - cbn. unfold deferred_reset in *. cbn in *.
    by destruct (_reset_prefix_arg (KEY_EATER w)).
  - cbn. exact Hr.
  - cbn. by rewrite Huk.
  - unfold active_keymap_list. cbn. by rewrite Hl, Hg.
Qed.

(** X15: when no active keymap binds anything and no prefix argument is
    open, every key other than the universal key is refused: each press is
    answered with a false value, no command runs, and after a non-empty
    run the pending chord is empty and the prefix argument still absent. *)
Theorem unbound_keys_refused (obj : ObjId) (keys : list KeyPress) (w : World) :
  _prefix_arg (deferred_reset (KEY_EATER w)) = PNone ->
  (forall km chord, km ∈ active_keymap_list w -> lookup km chord = None) ->
  Forall (fun kp => kp <> universal_key (KEY_EATER w)) keys ->
  keys <> [] ->
  exists w' new,
    feed_all obj keys w = (Returns (replicate (length keys) RetNone), w')
    /\ events w' = events w ++ new
    /\ calls_of new = []
    /\ _keypresses (KEY_EATER w') = []
    /\ _prefix_arg (KEY_EATER w') = PNone.
Proof.
  revert w. induction keys as [| kp keys IH]; intros w Hp Hsilent Hkeys Hne; [done |].
  apply Forall_cons in Hkeys as [Hkp Hkeys].
  destruct (unbound_key_refused obj kp w Hp Hsilent Hkp)
    as (w1 & new1 & Hf & He1 & Hc1 & Hk1 & Hp1 & Hr1 & Hu1 & Ha1).
  cbn [feed_all length replicate].
  unfold bind at 1, mbind, Py_bind. rewrite Hf.
  destruct keys as [| kp2 keys].
  - exists w1, new1. cbn. done.
  - destruct (IH w1) as (w' & new2 & Hrun & He2 & Hc2 & Hk2 & Hp2).
    + unfold deferred_reset. by rewrite Hr1.
    + intros km chord Hin. apply Hsilent. by rewrite <- Ha1.
    + by rewrite Hu1.
    + done.
    + exists w', (new1 ++ new2).
      unfold bind at 1, mbind, Py_bind. rewrite Hrun.
      split; [reflexivity |]. split; [by rewrite He2, He1, app_assoc |].
      split; [by rewrite calls_of_app, Hc1, Hc2 |]. done.
Qed.

Lemma unbound_keys_refused_witness :
  _prefix_arg (deferred_reset (KEY_EATER sample_world)) = PNone
  /\ (forall km chord, km ∈ active_keymap_list sample_world -> lookup km chord = None)
  /\ Forall (fun kp => kp <> universal_key (KEY_EATER sample_world)) [key_g; plain_key "1"; key_x]
  /\ [key_g; plain_key "1"; key_x] <> []
  /\ exists w' new,
    feed_all 1%positive [key_g; plain_key "1"; key_x] sample_world
    = (Returns (replicate (length [key_g; plain_key "1"; key_x]) RetNone), w')
    /\ events w' = events sample_world ++ new
    /\ calls_of new = []
    /\ _keypresses (KEY_EATER w') = []
    /\ _prefix_arg (KEY_EATER w') = PNone.
Proof.
  assert (H2 : forall km chord, km ∈ active_keymap_list sample_world -> lookup km chord = None).
  { intros km chord Hin. apply list_elem_of_singleton in Hin. by subst km. }
  assert (H3 : Forall (fun kp => kp <> universal_key (KEY_EATER sample_world))
                 [key_g; plain_key "1"; key_x]).
  { repeat constructor; discriminate. }
  assert (H4 : [key_g; plain_key "1"; key_x] <> []) by discriminate.
  split; [reflexivity |]. split; [exact H2 |]. split; [exact H3 |]. split; [exact H4 |].
  exact (unbound_keys_refused 1%positive [key_g; plain_key "1"; key_x] sample_world
           eq_refl H2 H3 H4).
Defined.

(** ** Registration and activation together *)

(** X16: registration is what makes an object heard.  Once a view is
    registered its activation makes its keymap the local one, whatever the
    local keymap was, while its focus events still do nothing as long as
    it is not registered as a minibuffer input; registering an input makes
    its gaining the focus switch the keymap in the same way. *)
Theorem registered_object_heard (obj : QObject) (w : World) :
  (LocalKeymapSetter.eventFilter obj WindowActivate
     (LocalKeymapSetter.register_view (obj_id obj) w).2).2
  = with_key_eater (set__local_key_map (Some (obj_keymap obj)) (KEY_EATER w))
      (LocalKeymapSetter.register_view (obj_id obj) w).2
  /\ (LocalKeymapSetter.eventFilter obj FocusIn
        (LocalKeymapSetter.register_minibuffer_input (obj_id obj) w).2).2
     = with_key_eater (set__local_key_map (Some (obj_keymap obj)) (KEY_EATER w))
         (LocalKeymapSetter.register_minibuffer_input (obj_id obj) w).2
  /\ (obj_id obj ∉ _minibuffer_inputs (LOCAL_KEYMAP_SETTER w) ->
      forall t, t <> WindowActivate ->
        (LocalKeymapSetter.eventFilter obj t
           (LocalKeymapSetter.register_view (obj_id obj) w).2).2
        = (LocalKeymapSetter.register_view (obj_id obj) w).2).
Proof.
  rewrite !eventFilter_eq. cbn [snd].
  unfold LocalKeymapSetter.register_view, LocalKeymapSetter.register_minibuffer_input.
  py_unfold. cbn [snd LOCAL_KEYMAP_SETTER KEY_EATER]. unfold keymap_switch.
  cbn [_views _minibuffer_inputs set__views set__minibuffer_inputs].
  split; [| split].
  - rewrite bool_decide_eq_true_2; [reflexivity |].
    apply elem_of_app. right. apply list_elem_of_singleton. reflexivity.
  - rewrite bool_decide_eq_true_2; [reflexivity |].
    apply elem_of_app. right. apply list_elem_of_singleton. reflexivity.
  - intros Hnot t Ht. rewrite eventFilter_eq. cbn [snd]. unfold keymap_switch.
    cbn [LOCAL_KEYMAP_SETTER _views _minibuffer_inputs set__views].
    rewrite (bool_decide_eq_false_2 _ Hnot). by destruct t.
Qed.

Lemma registered_object_heard_witness :
  (obj_id view_a ∉ _minibuffer_inputs (LOCAL_KEYMAP_SETTER browsing_world))
  /\ FocusIn <> WindowActivate
  /\ _local_key_map
       (KEY_EATER
          (LocalKeymapSetter.eventFilter view_a WindowActivate
             (LocalKeymapSetter.register_view (obj_id view_a) browsing_world).2).2)
     = Some (obj_keymap view_a)
  /\ (LocalKeymapSetter.eventFilter view_a FocusIn
        (LocalKeymapSetter.register_view (obj_id view_a) browsing_world).2).2
     = (LocalKeymapSetter.register_view (obj_id view_a) browsing_world).2.
Proof.
  assert (H1 : obj_id view_a ∉ _minibuffer_inputs (LOCAL_KEYMAP_SETTER browsing_world))
    by apply not_elem_of_nil.
  assert (H2 : FocusIn <> WindowActivate) by discriminate.
  split; [exact H1 |]. split; [exact H2 |].
  destruct (registered_object_heard view_a browsing_world) as (Hact & _ & Hquiet).
  split.
  - rewrite Hact. reflexivity.
  - exact (Hquiet H1 FocusIn H2).
Defined.

(** ** Which keys extend the prefix argument *)

(** X17: with a prefix argument open, a digit pressed together with a
    modifier, or a key that is not a digit, does not extend it: the key
    goes through keymap lookup and the prefix argument stays as it is. *)
Theorem modified_digit_is_looked_up (obj : ObjId) (kp : KeyPress) (w : World) :
  kp <> universal_key (KEY_EATER w) ->
  has_any_modifier kp = true \/ _allowed_universal_keys (KEY_EATER w) !! key kp = None ->
  takes_normal_path (KEY_EATER w) kp = true
  /\ exists r w' new,
    KeyEater.event_filter obj (mkQEvent (Some kp)) w = (Returns r, w')
    /\ events w' = events w ++ new
    /\ lookups_of new
       = (fun km => (keymap_name km, _keypresses (KEY_EATER w) ++ [kp])) <$> active_keymap_list w
    /\ _prefix_arg (KEY_EATER w') = _prefix_arg (deferred_reset (KEY_EATER w)).
Proof.
  intros Hu Hwhy.
  assert (Hn : takes_normal_path (KEY_EATER w) kp = true).
  { unfold takes_normal_path, takes_digit_path, takes_universal_path.
    rewrite bool_decide_eq_false_2 by done. cbn [negb andb].
    destruct Hwhy as [Hm | Hk].
    - rewrite Hm. cbn [negb]. by rewrite andb_false_r.
    - rewrite Hk. rewrite (bool_decide_eq_false_2 (is_Some None)) by (by intros [? ?]).
      by rewrite andb_false_r. }
  split; [exact Hn |].
  rewrite (normal_press obj kp w Hn).
  eexists _, _, _. split; [reflexivity |].
  cbn [events add_events with_key_eater KEY_EATER].
  split; [reflexivity |]. split.
  - change (lookups_of (minibuffer_show_info ?c :: ?evs)) with (lookups_of evs).
    apply lookups_of_steps.
  - destruct (finish_lookup_frame (partial_found w kp) (command_found w kp)
                (set__keypresses (chord_with w kp)
                   (deferred_reset (set_current_obj (Some obj) (KEY_EATER w)))))
      as (_ & _ & _ & _ & _ & Hp & _).
    rewrite Hp. unfold deferred_reset. cbn. by destruct (_reset_prefix_arg (KEY_EATER w)).
Qed.

Lemma modified_digit_is_looked_up_witness :
  mkKeyPress (CHAR2KEY "1") true false false false <> universal_key (KEY_EATER after_universal)
  /\ (has_any_modifier (mkKeyPress (CHAR2KEY "1") true false false false) = true
      \/ _allowed_universal_keys (KEY_EATER after_universal)
         !! key (mkKeyPress (CHAR2KEY "1") true false false false) = None)
  /\ takes_normal_path (KEY_EATER after_universal)
       (mkKeyPress (CHAR2KEY "1") true false false false) = true
  /\ exists r w' new,
    KeyEater.event_filter 1%positive
      (mkQEvent (Some (mkKeyPress (CHAR2KEY "1") true false false false))) after_universal
    = (Returns r, w')
    /\ events w' = events after_universal ++ new
    /\ lookups_of new
       = (fun km => (keymap_name km,
                     _keypresses (KEY_EATER after_universal)
                     ++ [mkKeyPress (CHAR2KEY "1") true false false false]))
         <$> active_keymap_list after_universal
    /\ _prefix_arg (KEY_EATER w') = _prefix_arg (deferred_reset (KEY_EATER after_universal)).
Proof.
  assert (H1 : mkKeyPress (CHAR2KEY "1") true false false false
               <> universal_key (KEY_EATER after_universal)) by discriminate.
  assert (H2 : has_any_modifier (mkKeyPress (CHAR2KEY "1") true false false false) = true
               \/ _allowed_universal_keys (KEY_EATER after_universal)
                  !! key (mkKeyPress (CHAR2KEY "1") true false false false) = None)
    by (left; reflexivity).
  split; [exact H1 |]. split; [exact H2 |].
  exact (modified_digit_is_looked_up 1%positive _ after_universal H1 H2).
Defined.

(** ** Chords of several keys *)

Lemma feed_all_app (obj : ObjId) (ks1 ks2 : list KeyPress) (w w1 : World)
    (rs1 : list PyRet) :
  feed_all obj ks1 w = (Returns rs1, w1) ->
  feed_all obj (ks1 ++ ks2) w
  = match feed_all obj ks2 w1 with
    | (Returns rs2, w2) => (Returns (rs1 ++ rs2), w2)
    | (Raises e, w2) => (Raises e, w2)
    end.
Proof.
  revert w rs1. induction ks1 as [| k ks1 IH]; intros w rs1 Hrun.
  - cbn in Hrun. injection Hrun as <- <-. cbn.
    by destruct (feed_all obj ks2 w) as [[rs2 | e] w2].
  - cbn [feed_all app] in Hrun |- *.
    unfold bind at 1, mbind, Py_bind in Hrun. unfold bind at 1, mbind, Py_bind.
    destruct (KeyEater.event_filter obj _ w) as [[r | e] w0]; [| discriminate].
    unfold bind at 1, mbind, Py_bind in Hrun. unfold bind at 1, mbind, Py_bind.
    destruct (feed_all obj ks1 w0) as [[rs | e] w0'] eqn:Hrest; [| discriminate].
    cbn in Hrun. injection Hrun as <- <-.
    rewrite (IH w0 rs Hrest).
    by destruct (feed_all obj ks2 w0') as [[rs2 | e] w2].
Qed.

(** A key that is a partial match and nothing more joins the chord. *)
Lemma partial_key_accumulates (obj : ObjId) (kp : KeyPress) (w : World) :
  _prefix_arg (deferred_reset (KEY_EATER w)) = PNone ->
  kp <> universal_key (KEY_EATER w) ->
  command_found w kp = false ->
  partial_found w kp = true ->
  exists w' new,
    KeyEater.event_filter obj (mkQEvent (Some kp)) w = (Returns (RetBool true), w')
    /\ events w' = events w ++ new
    /\ calls_of new = []
    /\ _keypresses (KEY_EATER w') = _keypresses (KEY_EATER w) ++ [kp]
    /\ _prefix_arg (KEY_EATER w') = PNone
    /\ _reset_prefix_arg (KEY_EATER w') = false
    /\ universal_key (KEY_EATER w') = universal_key (KEY_EATER w)
    /\ active_keymap_list w' = active_keymap_list w.
Proof.
  intros Hp Hu Hc Hpa.
  assert (Hn : takes_normal_path (KEY_EATER w) kp = true).
  { unfold takes_normal_path, takes_digit_path, takes_universal_path.
    rewrite Hp. rewrite bool_decide_eq_false_2 by done. reflexivity. }
  rewrite (normal_press obj kp w Hn). rewrite Hc, Hpa.
  eexists _, _. split; [reflexivity |].
  cbn [events add_events with_key_eater KEY_EATER].
  split; [reflexivity |].
  destruct (deferred_reset_frame (set_current_obj (Some obj) (KEY_EATER w)))
    as (_ & _ & Hl & _ & Hg & Huk & Hr & _).
  split; [| split; [reflexivity | split; [| split; [| split]]]].
  - change (calls_of (minibuffer_show_info ?c :: ?evs)) with (calls_of evs).
    apply calls_of_steps_none. exact Hc.
  - cbn. unfold deferred_reset in *. cbn in *.
    by destruct (_reset_prefix_arg (KEY_EATER w)).
  - cbn. exact Hr.
  - cbn. by rewrite Huk.
  - unfold active_keymap_list. cbn. by rewrite Hl, Hg.
Qed.

Lemma partial_keys_accumulate (obj : ObjId) (keys : list KeyPress) (w : World) :
  _prefix_arg (deferred_reset (KEY_EATER w)) = PNone ->
  Forall (fun kp => kp <> universal_key (KEY_EATER w)) keys ->
  (forall n, (1 <= n <= length keys)%nat ->
     existsb (reports_complete (_keypresses (KEY_EATER w) ++ take n keys))
       (active_keymap_list w) = false
     /\ existsb (reports_partial (_keypresses (KEY_EATER w) ++ take n keys))
          (active_keymap_list w) = true) ->
  exists w' new,
    feed_all obj keys w = (Returns (replicate (length keys) (RetBool true)), w')
    /\ events w' = events w ++ new
    /\ calls_of new = []
    /\ _keypresses (KEY_EATER w') = _keypresses (KEY_EATER w) ++ keys
    /\ _prefix_arg (deferred_reset (KEY_EATER w')) = PNone
    /\ universal_key (KEY_EATER w') = universal_key (KEY_EATER w)
    /\ active_keymap_list w' = active_keymap_list w.
Proof.
  revert w. induction keys as [| kp keys IH]; intros w Hp Hkeys Hpart.
  - exists w, []. cbn. rewrite !app_nil_r. done.
  - apply Forall_cons in Hkeys as [Hkp Hkeys].
    destruct (Hpart 1%nat) as [Hc1 Hp1]; [cbn; lia |].
    cbn [take] in Hc1, Hp1.
    destruct (partial_key_accumulates obj kp w Hp Hkp Hc1 Hp1)
      as (w1 & new1 & Hf & He1 & Hcalls1 & Hk1 & Hpa1 & Hr1 & Hu1 & Ha1).
    destruct (IH w1) as (w' & new2 & Hrun & He2 & Hcalls2 & Hk2 & Hpa2 & Hu2 & Ha2).
    + unfold deferred_reset. by rewrite Hr1.
    + by rewrite Hu1.
    + intros n Hn. rewrite Hk1, Ha1, <- app_assoc.
      apply (Hpart (S n)). cbn. lia.
    + exists w', (new1 ++ new2). cbn [feed_all length replicate].
      unfold bind at 1, mbind, Py_bind. rewrite Hf.
      unfold bind at 1, mbind, Py_bind. rewrite Hrun.
      split; [reflexivity |]. split; [by rewrite He2, He1, app_assoc |].
      split; [by rewrite calls_of_app, Hcalls1, Hcalls2 |].
      split; [by rewrite Hk2, Hk1, <- app_assoc |].
      split; [exact Hpa2 |]. split; [by rewrite Hu2 | by rewrite Ha2].
Qed.

(** X18: a chord of several keys.  With no prefix argument open, while
    each key pressed makes the pending chord a partial match and nothing
    more, every press is consumed, no command runs and the keys pile up in
    order; the key that makes some active keymap report a complete match is
    consumed too, and leaves the chord empty with the reset armed. *)
Theorem chord_accumulates_then_completes (obj : ObjId) (keys : list KeyPress)
    (last : KeyPress) (w : World) :
  _prefix_arg (deferred_reset (KEY_EATER w)) = PNone ->
  Forall (fun kp => kp <> universal_key (KEY_EATER w)) (keys ++ [last]) ->
  (forall n, (1 <= n <= length keys)%nat ->
     existsb (reports_complete (_keypresses (KEY_EATER w) ++ take n keys))
       (active_keymap_list w) = false
     /\ existsb (reports_partial (_keypresses (KEY_EATER w) ++ take n keys))
          (active_keymap_list w) = true) ->
  existsb (reports_complete (_keypresses (KEY_EATER w) ++ keys ++ [last]))
    (active_keymap_list w) = true ->
  exists w1 new w',
    feed_all obj keys w = (Returns (replicate (length keys) (RetBool true)), w1)
    /\ events w1 = events w ++ new
    /\ calls_of new = []
    /\ _keypresses (KEY_EATER w1) = _keypresses (KEY_EATER w) ++ keys
    /\ feed_all obj (keys ++ [last]) w
       = (Returns (replicate (S (length keys)) (RetBool true)), w')
    /\ _keypresses (KEY_EATER w') = []
    /\ _reset_prefix_arg (KEY_EATER w') = true.
Proof.
  intros Hp Hkeys Hpart Hlast.
  apply Forall_app in Hkeys as [Hkeys Hl]. rewrite Forall_singleton in Hl.
  destruct (partial_keys_accumulate obj keys w Hp Hkeys Hpart)
    as (w1 & new & Hrun & He & Hcalls & Hk & Hp1 & Hu1 & Ha1).
  assert (Hn : takes_normal_path (KEY_EATER w1) last = true).
  { unfold takes_normal_path, takes_digit_path, takes_universal_path.
    rewrite Hp1, Hu1. rewrite bool_decide_eq_false_2 by done. reflexivity. }
  assert (Hc : command_found w1 last = true).
  { unfold command_found, chord_with. by rewrite Hk, Ha1, <- app_assoc. }
  destruct (command_found_state obj last w1 Hn Hc) as (w' & new' & Hf & _ & Hk' & _).
  exists w1, new, w'. split; [exact Hrun |]. split; [exact He |].
  split; [exact Hcalls |]. split; [exact Hk |].
  rewrite (feed_all_app obj keys [last] w w1 _ Hrun).
  cbn [feed_all]. unfold bind at 1, mbind, Py_bind. rewrite Hf. cbn.
  split; [| by rewrite Hk'].
  f_equal. f_equal.
  change (RetBool true :: replicate (length keys) (RetBool true))
    with (replicate (S (length keys)) (RetBool true)).
  by rewrite replicate_S_end.
Qed.

Lemma chord_accumulates_then_completes_witness :
  _prefix_arg (deferred_reset (KEY_EATER browsing_world)) = PNone
  /\ Forall (fun kp => kp <> universal_key (KEY_EATER browsing_world)) ([key_g] ++ [key_g])
  /\ (forall n, (1 <= n <= length [key_g])%nat ->
        existsb (reports_complete (_keypresses (KEY_EATER browsing_world) ++ take n [key_g]))
          (active_keymap_list browsing_world) = false
        /\ existsb (reports_partial (_keypresses (KEY_EATER browsing_world) ++ take n [key_g]))
             (active_keymap_list browsing_world) = true)
  /\ existsb (reports_complete (_keypresses (KEY_EATER browsing_world) ++ [key_g] ++ [key_g]))
       (active_keymap_list browsing_world) = true
  /\ exists w1 new w',
    feed_all 1%positive [key_g] browsing_world
    = (Returns (replicate (length [key_g]) (RetBool true)), w1)
    /\ events w1 = events browsing_world ++ new
    /\ calls_of new = []
    /\ _keypresses (KEY_EATER w1) = _keypresses (KEY_EATER browsing_world) ++ [key_g]
    /\ feed_all 1%positive ([key_g] ++ [key_g]) browsing_world
       = (Returns (replicate (S (length [key_g])) (RetBool true)), w')
    /\ _keypresses (KEY_EATER w') = []
    /\ _reset_prefix_arg (KEY_EATER w') = true.
Proof.
  assert (H2 : Forall (fun kp => kp <> universal_key (KEY_EATER browsing_world))
                 ([key_g] ++ [key_g])) by (repeat constructor; discriminate).
  assert (H3 : forall n, (1 <= n <= length [key_g])%nat ->
             existsb (reports_complete (_keypresses (KEY_EATER browsing_world) ++ take n [key_g]))
               (active_keymap_list browsing_world) = false
             /\ existsb (reports_partial (_keypresses (KEY_EATER browsing_world) ++ take n [key_g]))
                  (active_keymap_list browsing_world) = true).
  { intros n Hn. cbn in Hn. assert (n = 1%nat) as -> by lia. split; reflexivity. }
  split; [reflexivity |]. split; [exact H2 |]. split; [exact H3 |]. split; [reflexivity |].
  exact (chord_accumulates_then_completes 1%positive [key_g] key_g browsing_world
           eq_refl H2 H3 eq_refl).
Defined.
